(** * Audio playback of the MCP play-sound server

    A shallow embedding of [src/mcp_server_play_sound/audio_player.py]:
    the result model, the two playback backends ([AFPlayBackend],
    [SimpleAudioBackend]) and the orchestrator [AudioPlayer] with its
    backend loop and its fallback to the default sound.

    The Python code is effectful (it queries the file system, spawns a
    process, runs a job on a worker thread, writes to a logger) and it can
    raise.  It is modelled in a small monad [M] that threads the state of the
    host, returns either a value or a raised exception, and records the calls
    made to the collaborators of the code, in order. *)

From Stdlib Require Import String Ascii List ZArith QArith Bool Lia.
From Stdlib Require Import DecimalString.
Import ListNotations.
Local Open Scope string_scope.
Local Open Scope list_scope.

Set Implicit Arguments.

(** ** Result model *)

(** [class PlaybackStatus(Enum)]. *)
Inductive PlaybackStatus : Type :=
| SUCCESS
| FAILED
| FALLBACK_USED
| TIMEOUT
| FILE_NOT_FOUND
| UNSUPPORTED_FORMAT.

Definition PlaybackStatus_eqb (a b : PlaybackStatus) : bool :=
  match a, b with
  | SUCCESS, SUCCESS
  | FAILED, FAILED
  | FALLBACK_USED, FALLBACK_USED
  | TIMEOUT, TIMEOUT
  | FILE_NOT_FOUND, FILE_NOT_FOUND
  | UNSUPPORTED_FORMAT, UNSUPPORTED_FORMAT => true
  | _, _ => false
  end.

(** [@dataclass class PlaybackResult], with the defaults of its last three
    fields.  Every backend of the source builds a new [PlaybackResult] for
    each call, so results are values here. *)
Record PlaybackResult : Type := mkPlaybackResult {
  status : PlaybackStatus;
  message : string;
  duration_ms : option Z;
  backend_used : option string;
  fallback_used : bool
}.

(** [PlaybackResult(status=s, message=m, backend_used=b)]. *)
Definition result (s : PlaybackStatus) (m : string) (b : option string)
  : PlaybackResult :=
  {| status := s; message := m; duration_ms := None;
     backend_used := b; fallback_used := false |}.

(** ** Exceptions

    Instances of Python's [Exception]: the class, as far as a handler of the
    source tells classes apart, and the text that [str(e)] gives.  Task
    cancellation and interpreter exit are not instances of [Exception] and
    are outside the model. *)
Inductive ExnClass : Type :=
| TimeoutError          (* asyncio.TimeoutError *)
| ImportError
| TimeoutExpired        (* subprocess.TimeoutExpired *)
| FileNotFoundError
| NotImplementedError
| OtherException.

Record Exn : Type := mkExn { exn_class : ExnClass; exn_str : string }.

Definition is_TimeoutError (e : Exn) : bool :=
  match exn_class e with TimeoutError => true | _ => false end.

Definition is_ImportError (e : Exn) : bool :=
  match exn_class e with ImportError => true | _ => false end.

Definition is_TimeoutExpired_or_FileNotFoundError (e : Exn) : bool :=
  match exn_class e with
  | TimeoutExpired | FileNotFoundError => true
  | _ => false
  end.

(** What a call produces: a value, or a raised exception. *)
Inductive Outcome (A : Type) : Type :=
| Ret (a : A)
| Raise (e : Exn).
Arguments Raise {A} e.

(** ** The host

    Everything the code reaches outside itself: paths and the file system,
    the [asyncio] subprocess, the [simpleaudio] library, the worker thread
    and its timer.  [World] is the state of the host; an operation that can
    raise returns a sum, the exception on the left.  A float is the rational
    it stands for. *)
Class Platform : Type := {
  (** [pathlib.Path], its [==], [Path(s)], [str(p)] and [p / s]. *)
  Path : Type;
  Path_eqb : Path -> Path -> bool;
  Path_eqb_eq : forall p q, Path_eqb p q = true <-> p = q;
  PathOf : string -> Path;
  str_path : Path -> string;
  path_join : Path -> string -> Path;
  (** [Path(__file__).parent]. *)
  package_dir : Path;
  (** [str(volume)] for a float. *)
  str_float : Q -> string;
  (** [sys.platform]. *)
  sys_platform : string;

  World : Type;
  (** [p.exists()].  It reads the file system and changes nothing; it can
      raise ([OSError]: a name too long, a directory that may not be
      searched). *)
  path_exists : Path -> World -> Exn + bool;

  (** [subprocess.run(["which", "afplay"], ..., timeout=5)]: the return
      code. *)
  subprocess_run : list string -> Z -> World -> (Exn + Z) * World;

  (** [asyncio.create_subprocess_exec( *cmd, ...)]. *)
  Process : Type;
  create_subprocess_exec : list string -> World -> (Exn + Process) * World;
  (** [asyncio.wait_for(process.communicate(), timeout=t)]: stdout and
      stderr, or [TimeoutError] when the timer wins. *)
  communicate :
    Process -> Z -> World -> (Exn + list Byte.byte * list Byte.byte) * World;
  (** [process.kill()] and [await process.wait()]. *)
  process_kill : Process -> World -> (Exn + unit) * World;
  process_wait : Process -> World -> (Exn + unit) * World;
  (** [process.returncode]. *)
  returncode : Process -> World -> option Z;
  (** [stderr.decode()]. *)
  decode : list Byte.byte -> Exn + string;

  (** [import simpleaudio]. *)
  SimpleAudioModule : Type;
  import_simpleaudio : World -> (Exn + SimpleAudioModule) * World;
  (** [WaveObject.from_wave_file(s)], [wave_obj.play()],
      [play_obj.wait_done()]. *)
  WaveObject : Type;
  PlayObject : Type;
  from_wave_file :
    SimpleAudioModule -> string -> World -> (Exn + WaveObject) * World;
  wave_play : WaveObject -> World -> (Exn + PlayObject) * World;
  wait_done : PlayObject -> World -> (Exn + unit) * World;
  (** [asyncio.get_event_loop()] and [ThreadPoolExecutor()]. *)
  get_event_loop : World -> (Exn + unit) * World;
  ThreadPoolExecutor : World -> (Exn + unit) * World;
  (** The race of [asyncio.wait_for(loop.run_in_executor(...), timeout=t)]:
      whether the timer fired before the job that took the host from the
      first state to the second was done. *)
  wait_for_expired : Z -> World -> World -> bool;
  (** An exception of its own that [asyncio.wait_for] raises instead of
      running the race ([OverflowError] for a timeout that the clock of the
      loop cannot hold).  A host gives at most one of the two answers. *)
  wait_for_error : Z -> World -> option Exn
}.

(** ** What is observed of a run *)

Inductive LogLevel : Type := DEBUG | INFO | WARNING | ERROR.

(** Calls made by a backend: to the logger and to its playback mechanism. *)
Inductive MechEvent : Type :=
| MLog (level : LogLevel) (msg : string)
| EvImport
| EvSubprocessRun (cmd : list string)
| EvSpawn (cmd : list string)
| EvCommunicate (timeout : Z)
| EvKill
| EvWait
| EvGetEventLoop
| EvExecutor
| EvFromWaveFile (file : string)
| EvPlay
| EvWaitDone
| EvExecutorShutdown.

(** ** The monad *)

Section Monad.
Context {P : Platform}.

(** A computation over the host that emits events of type [E]. *)
Definition M (E A : Type) : Type := World -> Outcome A * World * list E.

Definition ret {E A} (a : A) : M E A := fun w => (Ret a, w, []).

Definition raise {E A} (e : Exn) : M E A := fun w => (Raise e, w, []).

Definition bind {E A B} (m : M E A) (k : A -> M E B) : M E B :=
  fun w =>
    match m w with
    | (Ret a, w1, t1) =>
        match k a w1 with (o, w2, t2) => (o, w2, t1 ++ t2) end
    | (Raise e, w1, t1) => (Raise e, w1, t1)
    end.

(** [try: body except <classes> as e: handler e]: [catches] tells whether
    the clause matches. *)
Definition try_except {E A} (body : M E A) (catches : Exn -> bool)
    (handler : Exn -> M E A) : M E A :=
  fun w =>
    match body w with
    | (Ret a, w1, t1) => (Ret a, w1, t1)
    | (Raise e, w1, t1) =>
        if catches e
        then match handler e w1 with (o, w2, t2) => (o, w2, t1 ++ t2) end
        else (Raise e, w1, t1)
    end.

Definition emit {E} (ev : E) : M E unit := fun w => (Ret tt, w, [ev]).

(** A host operation, announced by the event [ev]. *)
Definition call {E A} (ev : E) (op : World -> (Exn + A) * World) : M E A :=
  fun w =>
    match op w with
    | (inr a, w1) => (Ret a, w1, [ev])
    | (inl e, w1) => (Raise e, w1, [ev])
    end.

(** A query that leaves the host as it is. *)
Definition ask {E A} (q : World -> A) : M E A := fun w => (Ret (q w), w, []).

(** A query that leaves the host as it is and can raise. *)
Definition query {E A} (q : World -> Exn + A) : M E A :=
  fun w =>
    match q w with
    | inr a => (Ret a, w, [])
    | inl e => (Raise e, w, [])
    end.

(** A pure operation that can raise. *)
Definition pure_or_raise {E A} (x : Exn + A) : M E A :=
  match x with inr a => ret a | inl e => raise e end.
End Monad.

Declare Scope monad_scope.
Delimit Scope monad_scope with monad.
Notation "x <- m ;; k" := (bind m (fun x => k))
  (at level 61, m at next level, right associativity) : monad_scope.
Notation "m ;; k" := (bind m (fun _ => k))
  (at level 61, right associativity) : monad_scope.
Local Open Scope monad_scope.

(** [str(n)] for an [int]. *)
Definition str_int (n : Z) : string := NilZero.string_of_int (Z.to_int n).

(** [' '.join(words)]. *)
Fixpoint join_spaces (words : list string) : string :=
  match words with
  | [] => ""
  | [w] => w
  | w :: rest => w ++ " " ++ join_spaces rest
  end.

(** Truth value of an [Optional[str]]: neither [None] nor empty. *)
Definition truthy (s : option string) : bool :=
  match s with
  | Some s => negb (s =? "")
  | None => false
  end.

(** ** Backends *)

(** [class AudioBackend]: a name and [play].  The registry of the player
    holds values of this type; the two backends below are its instances. *)
Module AudioBackend.
Section Defs.
Context {P : Platform}.

Record t : Type := mk {
  name : string;
  play : Path -> Q -> Z -> M MechEvent PlaybackResult
}.

(** The base class itself: [play] raises [NotImplementedError]. *)
Definition base (name : string) : t :=
  {| name := name;
     play := fun _ _ _ => raise (mkExn NotImplementedError "") |}.
End Defs.
End AudioBackend.

(** [class AFPlayBackend(AudioBackend)]. *)
Module AFPlayBackend.
Section Defs.
Context {P : Platform}.

Definition name : string := "afplay".

Definition is_available : M MechEvent bool :=
  if negb (sys_platform =? "darwin") then ret false
  else
    try_except
      (rc <- call (EvSubprocessRun ["which"; "afplay"])
                  (subprocess_run ["which"; "afplay"] 5) ;;
       ret (rc =? 0)%Z)
      is_TimeoutExpired_or_FileNotFoundError
      (fun _ => ret false).

Definition play (file_path : Path) (volume : Q) (timeout : Z)
  : M MechEvent PlaybackResult :=
  present <- query (path_exists file_path) ;;
  if negb present then
    ret (result FILE_NOT_FOUND
           ("Audio file not found: " ++ str_path file_path) (Some name))
  else
    try_except
      (let cmd :=
         ["afplay"]
           ++ (if negb (Qeq_bool volume 1)
               then ["-v"; str_float volume] else [])
           ++ [str_path file_path] in
       emit (MLog DEBUG
               ("Executing afplay command: " ++ join_spaces cmd)) ;;
       process <- call (EvSpawn cmd) (create_subprocess_exec cmd) ;;
       (* inner [try]: [inl] is the [return] of its handler *)
       done <- try_except
                 (out <- call (EvCommunicate timeout)
                              (communicate process timeout) ;;
                  ret (inr out))
                 is_TimeoutError
                 (fun _ =>
                    call EvKill (process_kill process) ;;
                    call EvWait (process_wait process) ;;
                    ret (inl (result TIMEOUT
                                ("Audio playback timed out after "
                                   ++ str_int timeout ++ " seconds")
                                (Some name)))) ;;
       match done with
       | inl early => ret early
       | inr (_, stderr) =>
           rc <- ask (returncode process) ;;
           match rc with
           | Some 0%Z =>
               ret (result SUCCESS "Audio played successfully"
                      (Some name))
           | _ =>
               error_msg <- match stderr with
                            | [] => ret "Unknown afplay error"
                            | _ :: _ => pure_or_raise (decode stderr)
                            end ;;
               ret (result FAILED ("afplay failed: " ++ error_msg)
                      (Some name))
           end
       end)
      (fun _ => true)
      (fun e =>
         emit (MLog ERROR
                 ("Error playing audio with afplay: " ++ exn_str e)) ;;
         ret (result FAILED ("afplay error: " ++ exn_str e)
                (Some name))).

Definition as_backend : AudioBackend.t :=
  {| AudioBackend.name := name; AudioBackend.play := play |}.
End Defs.
End AFPlayBackend.

(** [class SimpleAudioBackend(AudioBackend)].  The object has one mutable
    field, [_simpleaudio], the imported module or [None]; the methods that
    may assign it return the object along with their value. *)
Module SimpleAudioBackend.
Section Defs.
Context {P : Platform}.

Definition name : string := "simpleaudio".

Record t : Type := mk { _simpleaudio : option SimpleAudioModule }.

Definition __init__ : t := {| _simpleaudio := None |}.

Definition is_available (self : t) : M MechEvent (bool * t) :=
  try_except
    (m <- call EvImport import_simpleaudio ;;
     ret (true, {| _simpleaudio := Some m |}))
    is_ImportError
    (fun _ => ret (false, self)).

(** Runs on the worker thread.  [volume] is not used. *)
Definition _play_sync (self : t) (file_path : Path) (volume : Q)
  : M MechEvent PlaybackResult :=
  try_except
    (m <- match _simpleaudio self with
          | Some m => ret m
          | None =>
              raise (mkExn OtherException
                "'NoneType' object has no attribute 'WaveObject'")
          end ;;
     wave_obj <- call (EvFromWaveFile (str_path file_path))
                      (from_wave_file m (str_path file_path)) ;;
     play_obj <- call EvPlay (wave_play wave_obj) ;;
     call EvWaitDone (wait_done play_obj) ;;
     ret (result SUCCESS "Audio played successfully" (Some name)))
    (fun _ => true)
    (fun e =>
       ret (result FAILED ("simpleaudio playback error: " ++ exn_str e)
              (Some name))).

(** [with ThreadPoolExecutor() as executor:
       await asyncio.wait_for(loop.run_in_executor(executor, job), timeout)].
    Leaving the [with] block calls [executor.shutdown(wait=True)], which
    returns once the worker has finished the job: when control comes
    back the job has run whole, whether the timer fired or not, and also
    when [wait_for] raised an exception of its own, since the job was
    submitted before [wait_for] was entered.  The code has no call that
    stops the job. *)
Definition run_in_executor_wait_for {A} (job : M MechEvent A)
    (timeout : Z) : M MechEvent A :=
  call EvExecutor ThreadPoolExecutor ;;
  (fun w0 =>
     match job w0 with
     | (o, w1, t) =>
         if wait_for_expired timeout w0 w1
         then (Raise (mkExn TimeoutError ""), w1,
               t ++ [EvExecutorShutdown])
         else
           match wait_for_error timeout w0 with
           | Some e => (Raise e, w1, t ++ [EvExecutorShutdown])
           | None => (o, w1, t ++ [EvExecutorShutdown])
           end
     end).

Definition play (self : t) (file_path : Path) (volume : Q) (timeout : Z)
  : M MechEvent (PlaybackResult * t) :=
  probed <- match _simpleaudio self with
            | Some _ => ret (true, self)
            | None => is_available self
            end ;;
  let '(available, self) := probed in
  if negb available then
    ret (result FAILED "simpleaudio not available" (Some name), self)
  else
    present <- query (path_exists file_path) ;;
    if negb present then
      ret (result FILE_NOT_FOUND
             ("Audio file not found: " ++ str_path file_path)
             (Some name), self)
    else
      r <- try_except
             (call EvGetEventLoop get_event_loop ;;
              run_in_executor_wait_for
                (_play_sync self file_path volume) timeout)
             (fun _ => true)
             (fun e =>
                if is_TimeoutError e then
                  ret (result TIMEOUT
                         ("Audio playback timed out after "
                            ++ str_int timeout ++ " seconds")
                         (Some name))
                else
                  emit (MLog ERROR
                          ("Error playing audio with simpleaudio: "
                             ++ exn_str e)) ;;
                  ret (result FAILED
                         ("simpleaudio error: " ++ exn_str e)
                         (Some name))) ;;
      ret (r, self).

(** The object as an entry of the registry.  The player registers it
    after [is_available] has set [_simpleaudio], and [play] does not
    assign the field of such an object ([play_keeps_loaded] below). *)
Definition as_backend (self : t) : AudioBackend.t :=
  {| AudioBackend.name := name;
     AudioBackend.play := fun file_path volume timeout =>
       r <- play self file_path volume timeout ;; ret (fst r) |}.
End Defs.
End SimpleAudioBackend.

(** ** The player *)

(** Modelled from the spec: [config.py] ([ServerConfig]) is not among the
    sources; these are the four attributes that [audio_player.py] reads, with
    the types the spec gives them: volume (float), timeout seconds (int),
    custom asset path (optional string), fallback-enabled (bool). *)
Record ServerConfig : Type := mkServerConfig {
  volume_level : Q;
  playback_timeout_seconds : Z;
  custom_sound_path : option string;
  enable_fallback : bool
}.

Section Events.
Context {P : Platform}.

(** Calls made by the player: to the logger, and to a backend, with the
    arguments passed, what came back, and the calls that the backend made
    in turn. *)
Inductive Event : Type :=
| Log (level : LogLevel) (msg : string)
| Probe (backend : string) (inner : list MechEvent)
| Play (backend : string) (file_path : Path) (volume : Q) (timeout : Z)
       (outcome : Outcome PlaybackResult) (inner : list MechEvent).

(** A call into a backend, seen from the player as one event. *)
Definition within {A} (wrap : Outcome A -> list MechEvent -> Event)
    (m : M MechEvent A) : M Event A :=
  fun w => match m w with (o, w1, t) => (o, w1, [wrap o t]) end.
End Events.

Module AudioPlayer.
Section Defs.
Context {P : Platform}.

Record t : Type := mk {
  config : ServerConfig;
  backends : list AudioBackend.t;
  _default_sound_path : Path
}.

(** [backend.play(file_path, volume=..., timeout=...)]. *)
Definition backend_play (backend : AudioBackend.t) (file_path : Path)
    (volume : Q) (timeout : Z) : M Event PlaybackResult :=
  within (Play (AudioBackend.name backend) file_path volume timeout)
         (AudioBackend.play backend file_path volume timeout).

(** Returns the list that the source builds in [self.backends]. *)
Definition _setup_backends : M Event (list AudioBackend.t) :=
  afplay_ok <- within (fun _ => Probe AFPlayBackend.name)
                      AFPlayBackend.is_available ;;
  backends1 <- (if afplay_ok : bool then
                  emit (Log DEBUG "AFPlay backend available") ;;
                  ret [AFPlayBackend.as_backend]
                else ret []) ;;
  probed <- within (fun _ => Probe SimpleAudioBackend.name)
                   (SimpleAudioBackend.is_available
                      SimpleAudioBackend.__init__) ;;
  let '(simpleaudio_ok, simpleaudio) := probed in
  backends2 <- (if simpleaudio_ok : bool then
                  emit (Log DEBUG "SimpleAudio backend available") ;;
                  ret (backends1
                         ++ [SimpleAudioBackend.as_backend simpleaudio])
                else ret backends1) ;;
  match backends2 with
  | [] => emit (Log WARNING "No audio backends available!") ;;
          ret backends2
  | _ :: _ => ret backends2
  end.

Definition _get_default_sound_path : M Event Path :=
  let default_sound :=
    path_join (path_join package_dir "assets") "notification.wav" in
  present <- query (path_exists default_sound) ;;
  (if negb present then
     emit (Log WARNING ("Default sound file not found: "
                          ++ str_path default_sound))
   else ret tt) ;;
  ret default_sound.

Definition __init__ (config : ServerConfig) : M Event t :=
  backends <- _setup_backends ;;
  default_sound <- _get_default_sound_path ;;
  emit (Log INFO ("AudioPlayer initialized with "
                    ++ str_int (Z.of_nat (length backends))
                    ++ " available backends")) ;;
  ret {| config := config; backends := backends;
         _default_sound_path := default_sound |}.

(** The [for] loop of [_play_with_backends], from the backends not yet
    tried and the current [last_result]. *)
Fixpoint try_backends (self : t) (file_path : Path)
    (last_result : option PlaybackResult)
    (rest : list AudioBackend.t) : M Event PlaybackResult :=
  match rest with
  | [] =>
      (* [last_result or PlaybackResult(...)]: an instance of the
         dataclass is true *)
      ret (match last_result with
           | Some r => r
           | None => result FAILED "All audio backends failed" None
           end)
  | backend :: rest' =>
      emit (Log DEBUG ("Trying backend: " ++ AudioBackend.name backend)) ;;
      r <- backend_play backend file_path
             (volume_level (config self))
             (playback_timeout_seconds (config self)) ;;
      if PlaybackStatus_eqb (status r) SUCCESS then ret r
      else
        emit (Log DEBUG ("Backend " ++ AudioBackend.name backend
                           ++ " failed: " ++ message r)) ;;
        try_backends self file_path (Some r) rest'
  end.

Definition _play_with_backends (self : t) (file_path : Path)
  : M Event PlaybackResult :=
  match backends self with
  | [] => ret (result FAILED "No audio backends available" None)
  | _ :: _ => try_backends self file_path None (backends self)
  end.

(** The [if]/[elif]/[else] at the head of [play_notification]:
    [(audio_path, use_custom)]. *)
Definition choose_audio (self : t) (custom_path : option string)
  : Path * bool :=
  if truthy custom_path && truthy (custom_sound_path (config self)) then
    (PathOf (match custom_sound_path (config self) with
             | Some s => s | None => "" end), true)
  else if truthy custom_path then
    (PathOf (match custom_path with Some s => s | None => "" end), true)
  else
    (_default_sound_path self, false).

Definition str_bool (b : bool) : string := if b then "True" else "False".

Definition play_notification (self : t) (custom_path : option string)
  : M Event PlaybackResult :=
  let '(audio_path, use_custom) := choose_audio self custom_path in
  emit (Log INFO ("Playing audio: " ++ str_path audio_path
                    ++ " (custom=" ++ str_bool use_custom ++ ")")) ;;
  r <- _play_with_backends self audio_path ;;
  if negb (PlaybackStatus_eqb (status r) SUCCESS)
     && use_custom
     && enable_fallback (config self)
     && negb (Path_eqb audio_path (_default_sound_path self))
  then
    emit (Log INFO "Custom audio failed, trying default fallback") ;;
    fallback_result <-
      _play_with_backends self (_default_sound_path self) ;;
    if PlaybackStatus_eqb (status fallback_result) SUCCESS then
      ret {| status := FALLBACK_USED;
             message := "Custom audio failed, used fallback: "
                          ++ message r;
             duration_ms := duration_ms fallback_result;
             backend_used := backend_used fallback_result;
             fallback_used := true |}
    else ret r
  else ret r.
End Defs.
End AudioPlayer.

(** ** Reading a trace *)

Section Traces.
Context {P : Platform}.

(** One call of [backend.play], as the player made it. *)
Record Invocation : Type := mkInvocation {
  inv_backend : string;
  inv_path : Path;
  inv_volume : Q;
  inv_timeout : Z;
  inv_outcome : Outcome PlaybackResult
}.

(** The calls of [backend.play] in a trace of the player, in order. *)
Fixpoint invocations (tr : list Event) : list Invocation :=
  match tr with
  | [] => []
  | Play b p v t o _ :: tr' => mkInvocation b p v t o :: invocations tr'
  | _ :: tr' => invocations tr'
  end.

(** The call returned a result whose status is not [SUCCESS]. *)
Definition unsuccessful (i : Invocation) : Prop :=
  exists r, inv_outcome i = Ret r /\ status r <> SUCCESS.

(** The shape of the calls that the loop makes on [rest], when it ends
    with [o]: a prefix of [rest] is called, in order and with the arguments
    of the configuration; every call but the last was unsuccessful; a call
    that succeeds is the last one and its result is returned; a result
    returned after some call is the result of the last call; a result
    that is not a success is returned only after every backend was
    called. *)
Definition loop_shape (self : AudioPlayer.t) (file_path : Path)
    (rest : list AudioBackend.t) (o : Outcome PlaybackResult)
    (invs : list Invocation) : Prop :=
  (exists n, map inv_backend invs
             = map AudioBackend.name (firstn n rest))
  /\ Forall (fun i =>
               inv_path i = file_path
               /\ inv_volume i = volume_level (AudioPlayer.config self)
               /\ inv_timeout i
                  = playback_timeout_seconds (AudioPlayer.config self))
            invs
  /\ (forall pre i post,
        invs = pre ++ i :: post -> post <> [] -> unsuccessful i)
  /\ (forall pre i post r,
        invs = pre ++ i :: post -> inv_outcome i = Ret r ->
        status r = SUCCESS -> post = [] /\ o = Ret r)
  /\ (forall r, o = Ret r -> invs <> [] ->
        exists pre i, invs = pre ++ [i] /\ inv_outcome i = Ret r)
  /\ (forall r, o = Ret r -> status r <> SUCCESS ->
        map inv_backend invs = map AudioBackend.name rest).

(** The two lines that [play_notification] logs at level [INFO]. *)
Definition playing_line (audio_path : Path) (use_custom : bool) : Event :=
  Log INFO ("Playing audio: " ++ str_path audio_path
              ++ " (custom=" ++ AudioPlayer.str_bool use_custom ++ ")").

Definition fallback_line : Event :=
  Log INFO "Custom audio failed, trying default fallback".

(** The loop logs at level [DEBUG] only. *)
Definition loop_event (e : Event) : Prop :=
  match e with
  | Log DEBUG _ | Play _ _ _ _ _ _ => True
  | _ => False
  end.

(** The asset on which [play_notification] first calls a backend. *)
Definition primary_asset (self : AudioPlayer.t) (custom_path : option string)
    (w : World) : option Path :=
  option_map inv_path
    (hd_error
       (invocations (snd (AudioPlayer.play_notification self custom_path w)))).


(** The computation returns a value from every state of the host. *)
Definition returns {E A} (m : M E A) : Prop :=
  forall w, exists a w' tr, m w = (Ret a, w', tr).


(** The player with another configured custom sound path. *)
Definition with_custom_sound_path (self : AudioPlayer.t)
    (path : option string) : AudioPlayer.t :=
  {| AudioPlayer.config :=
       {| volume_level := volume_level (AudioPlayer.config self);
          playback_timeout_seconds :=
            playback_timeout_seconds (AudioPlayer.config self);
          custom_sound_path := path;
          enable_fallback := enable_fallback (AudioPlayer.config self) |};
     AudioPlayer.backends := AudioPlayer.backends self;
     AudioPlayer._default_sound_path := AudioPlayer._default_sound_path self
  |}.

(** A backend that the constructor of the player can register:
    [AFPlayBackend], or a [SimpleAudioBackend] whose module is loaded. *)
Definition builtin (b : AudioBackend.t) : Prop :=
  b = AFPlayBackend.as_backend
  \/ exists m, b = SimpleAudioBackend.as_backend
                     {| SimpleAudioBackend._simpleaudio := Some m |}.
(** The calls that the backends made to their mechanisms and to the logger,
    over a whole trace of the player. *)
Fixpoint mechanism_events (tr : list Event) : list MechEvent :=
  match tr with
  | [] => []
  | Play _ _ _ _ _ inner :: tr' => inner ++ mechanism_events tr'
  | Probe _ inner :: tr' => inner ++ mechanism_events tr'
  | Log _ _ :: tr' => mechanism_events tr'
  end.

(** A result as the backend called [name] builds it: it names the backend,
    its fallback flag and its duration keep their defaults, and its status
    is one of the four that the backends use. *)
Definition backend_result (name : string) (r : PlaybackResult) : Prop :=
  backend_used r = Some name
  /\ fallback_used r = false
  /\ duration_ms r = None
  /\ (status r = SUCCESS \/ status r = FAILED \/ status r = TIMEOUT
      \/ status r = FILE_NOT_FOUND).

(** Every value that the computation returns satisfies [Q]. *)
Definition yields {E A} (m : M E A) (Q : A -> Prop) : Prop :=
  forall w a w' tr, m w = (Ret a, w', tr) -> Q a.

(** The command line of [afplay]: the volume option is left out for the
    volume 1.0. *)
Definition afplay_command (file_path : Path) (volume : Q) : list string :=
  ["afplay"]
    ++ (if negb (Qeq_bool volume 1) then ["-v"; str_float volume] else [])
    ++ [str_path file_path].



(** The exception [e] was raised in the [try] block of [_play_sync] run
    from [w]: by [from_wave_file], by [play] or by [wait_done], or it is
    the [AttributeError] of an object whose module was never loaded. *)
Definition play_sync_exception (self : SimpleAudioBackend.t)
    (file_path : Path) (w : World) (e : Exn) : Prop :=
  match SimpleAudioBackend._simpleaudio self with
  | None =>
      e = mkExn OtherException
            "'NoneType' object has no attribute 'WaveObject'"
  | Some m =>
      (exists w1,
         from_wave_file m (str_path file_path) w = (inl e, w1))
      \/ (exists wave_obj w1,
            from_wave_file m (str_path file_path) w = (inr wave_obj, w1)
            /\ ((exists w2, wave_play wave_obj w1 = (inl e, w2))
                \/ (exists play_obj w2 w3,
                      wave_play wave_obj w1 = (inr play_obj, w2)
                      /\ wait_done play_obj w2 = (inl e, w3))))
  end.

(** The path of the bundled sound. *)
Definition bundled_sound : Path :=
  path_join (path_join package_dir "assets") "notification.wav".
(** The player with another configured volume. *)
Definition with_volume (self : AudioPlayer.t) (volume : Q) : AudioPlayer.t :=
  {| AudioPlayer.config :=
       {| volume_level := volume;
          playback_timeout_seconds :=
            playback_timeout_seconds (AudioPlayer.config self);
          custom_sound_path := custom_sound_path (AudioPlayer.config self);
          enable_fallback := enable_fallback (AudioPlayer.config self) |};
     AudioPlayer.backends := AudioPlayer.backends self;
     AudioPlayer._default_sound_path := AudioPlayer._default_sound_path self
  |}.

(** The registry entry of some [SimpleAudioBackend] object. *)
Definition is_simpleaudio (b : AudioBackend.t) : Prop :=
  exists backend, b = SimpleAudioBackend.as_backend backend.
End Traces.

(** ** A host to run the model on

    A small host with a file system, an [afplay] and a [simpleaudio] whose
    behaviour is read off the state: which files exist, whether the library
    is installed, how long a sound lasts, the exit status of [afplay].  The
    state also keeps what was heard to the end and how many processes were
    killed. *)
Module TestHost.
Record Host : Type := mk {
  files : list string;
  simpleaudio_installed : bool;
  sound_seconds : Z;
  afplay_status : Z;
  heard : list string;
  killed : nat
}.

Definition hear (file : string) (w : Host) : Host :=
  {| files := files w; simpleaudio_installed := simpleaudio_installed w;
     sound_seconds := sound_seconds w; afplay_status := afplay_status w;
     heard := heard w ++ [file]; killed := killed w |}.

Definition kill (w : Host) : Host :=
  {| files := files w; simpleaudio_installed := simpleaudio_installed w;
     sound_seconds := sound_seconds w; afplay_status := afplay_status w;
     heard := heard w; killed := S (killed w) |}.

(** A name that the file system refuses: [exists()] raises on it. *)
Definition long_name : string :=
  string_of_list_ascii (repeat "a"%char 300).

(** The host as a platform, for a value of [sys.platform] and a package
    directory.  [exists()] raises on a path of more than 255 characters;
    [wait_for] raises on a timeout of 2^1024 seconds or more. *)
Definition make (os package : string) : Platform := {|
  Path := string;
  Path_eqb := String.eqb;
  Path_eqb_eq := String.eqb_eq;
  PathOf := fun s => s;
  str_path := fun p => p;
  path_join := fun p s => (p ++ "/" ++ s)%string;
  package_dir := package;
  str_float := fun q =>
    (str_int (Qnum q) ++ "/" ++ str_int (Zpos (Qden q)))%string;
  sys_platform := os;
  World := Host;
  path_exists := fun p w =>
    if (255 <? String.length p)%nat
    then inl (mkExn OtherException "[Errno 36] File name too long")
    else inr (existsb (String.eqb p) (files w));
  subprocess_run := fun _ _ w => (inr 0%Z, w);
  Process := string;
  create_subprocess_exec := fun cmd w => (inr (last cmd ""), w);
  communicate := fun file t w =>
    if (sound_seconds w >? t)%Z
    then (inl (mkExn TimeoutError ""), w)
    else (inr ([], []), hear file w);
  process_kill := fun _ w => (inr tt, kill w);
  process_wait := fun _ w => (inr tt, w);
  returncode := fun _ w => Some (afplay_status w);
  decode := fun _ => inr "";
  SimpleAudioModule := unit;
  import_simpleaudio := fun w =>
    if simpleaudio_installed w then (inr tt, w)
    else (inl (mkExn ImportError "No module named 'simpleaudio'"), w);
  WaveObject := string;
  PlayObject := string;
  from_wave_file := fun _ file w => (inr file, w);
  wave_play := fun wave w => (inr wave, w);
  wait_done := fun file w => (inr tt, hear file w);
  get_event_loop := fun w => (inr tt, w);
  ThreadPoolExecutor := fun w => (inr tt, w);
  wait_for_expired := fun t w0 _ => (sound_seconds w0 >? t)%Z;
  wait_for_error := fun t _ =>
    if (1024 <=? Z.log2 t)%Z
    then Some (mkExn OtherException "int too large to convert to float")
    else None
|}.

#[export] Instance platform : Platform := make "darwin" "/pkg".

Definition default_sound : string := "/pkg/assets/notification.wav".

(** The bundled sound exists, it lasts two seconds, [simpleaudio] is
    installed. *)
Definition host0 : Host :=
  {| files := [default_sound]; simpleaudio_installed := true;
     sound_seconds := 2; afplay_status := 0; heard := []; killed := 0 |}.

(** The same host without [simpleaudio]. *)
Definition host_bare : Host :=
  {| files := [default_sound]; simpleaudio_installed := false;
     sound_seconds := 2; afplay_status := 0; heard := []; killed := 0 |}.

(** A test double: it plays the files listed and fails on the others. *)
Definition double (name : string) (playable : list string)
  : AudioBackend.t :=
  {| AudioBackend.name := name;
     AudioBackend.play := fun file_path _ _ =>
       if existsb (String.eqb file_path) playable
       then ret (result SUCCESS "Audio played successfully" (Some name))
       else ret (result FAILED (name ++ " cannot play " ++ file_path)
                   (Some name)) |}.

Definition config0 : ServerConfig :=
  {| volume_level := 4 # 5; playback_timeout_seconds := 30;
     custom_sound_path := None; enable_fallback := true |}.

Definition player (config : ServerConfig) (backends : list AudioBackend.t)
  : AudioPlayer.t :=
  {| AudioPlayer.config := config; AudioPlayer.backends := backends;
     AudioPlayer._default_sound_path := default_sound |}.

(** A custom sound path is configured. *)
Definition config_custom : ServerConfig :=
  {| volume_level := 4 # 5; playback_timeout_seconds := 30;
     custom_sound_path := Some "/etc/chime.wav"; enable_fallback := true |}.

(** Fallback is disabled. *)
Definition config_no_fallback : ServerConfig :=
  {| volume_level := 4 # 5; playback_timeout_seconds := 30;
     custom_sound_path := None; enable_fallback := false |}.

(** The volume is above 1.0 and the timeout is negative. *)
Definition config_bad : ServerConfig :=
  {| volume_level := 5 # 2; playback_timeout_seconds := -3;
     custom_sound_path := None; enable_fallback := true |}.

(** A [SimpleAudioBackend] after a successful [is_available]. *)
Definition loaded : SimpleAudioBackend.t :=
  {| SimpleAudioBackend._simpleaudio := Some tt |}.

(** The registry that the constructor builds on [host0]. *)
Definition registry0 : list AudioBackend.t :=
  [AFPlayBackend.as_backend; SimpleAudioBackend.as_backend loaded].
(** The same host under Linux: only [sys.platform] differs. *)
Definition platform_linux : Platform := make "linux" "/pkg".

(** The same host with the package under a path that the file system
    refuses. *)
Definition platform_deep : Platform := make "darwin" long_name.

End TestHost.

(** * Properties *)

Lemma PlaybackStatus_eqb_eq (a b : PlaybackStatus) :
  PlaybackStatus_eqb a b = true <-> a = b.
Proof. destruct a, b; simpl; split; intro H; congruence. Qed.

Lemma PlaybackStatus_eqb_neq (a b : PlaybackStatus) :
  PlaybackStatus_eqb a b = false <-> a <> b.
Proof. destruct a, b; simpl; split; intro H; congruence. Qed.

Lemma truthy_Some (s : string) : truthy (Some s) = true <-> s <> "".
Proof.
  unfold truthy. destruct (String.eqb_spec s ""); simpl; split; intro H;
    congruence.
Qed.

Section Loop.
Context {P : Platform}.
Variable self : AudioPlayer.t.

#[local] Abbreviation volume := (volume_level (AudioPlayer.config self)).
#[local] Abbreviation timeout :=
  (playback_timeout_seconds (AudioPlayer.config self)).

Lemma invocations_app (t1 t2 : list Event) :
  invocations (t1 ++ t2) = invocations t1 ++ invocations t2.
Proof.
  induction t1 as [|e t1 IH]; simpl; [reflexivity|].
  destruct e; simpl; rewrite IH; reflexivity.
Qed.

(** One turn of the loop. *)
Lemma try_backends_cons file_path last b rest w :
  AudioPlayer.try_backends self file_path last (b :: rest) w =
  let trying := Log DEBUG ("Trying backend: " ++ AudioBackend.name b) in
  match AudioBackend.play b file_path volume timeout w with
  | (Ret r, w1, inner) =>
      let played :=
        Play (AudioBackend.name b) file_path volume timeout (Ret r) inner in
      if PlaybackStatus_eqb (status r) SUCCESS
      then (Ret r, w1, [trying; played])
      else
        match AudioPlayer.try_backends self file_path (Some r) rest w1 with
        | (o, w2, t2) =>
            (o, w2,
             trying :: played
               :: Log DEBUG ("Backend " ++ AudioBackend.name b
                               ++ " failed: " ++ message r) :: t2)
        end
  | (Raise e, w1, inner) =>
      (Raise e, w1,
       [trying;
        Play (AudioBackend.name b) file_path volume timeout (Raise e) inner])
  end.
Proof.
  cbn [AudioPlayer.try_backends].
  unfold bind, emit, AudioPlayer.backend_play, within, ret. cbn.
  destruct (AudioBackend.play b file_path _ _ w) as [[[r|e] w1] inner];
    cbn; [|reflexivity].
  destruct (PlaybackStatus_eqb (status r) SUCCESS); cbn; [reflexivity|].
  destruct (AudioPlayer.try_backends self file_path (Some r) rest w1)
    as [[o w2] t2]; reflexivity.
Qed.

Lemma singleton_split {A} (x i : A) (pre post : list A) :
  [x] = pre ++ i :: post -> pre = [] /\ i = x /\ post = [].
Proof.
  destruct pre as [|a [|b pre]]; cbn; intro H.
  - injection H as -> <-. auto.
  - discriminate.
  - discriminate.
Qed.

Ltac shape_split :=
  unfold loop_shape;
  refine (conj _ (conj _ (conj _ (conj _ (conj _ _))))).

Lemma try_backends_shape file_path rest : forall last w,
  match AudioPlayer.try_backends self file_path last rest w with
  | (o, _, tr) =>
      loop_shape self file_path rest o (invocations tr)
      /\ (invocations tr = [] ->
          o = Ret (match last with
                   | Some r => r
                   | None => result FAILED "All audio backends failed" None
                   end))
  end.
Proof.
  induction rest as [|b rest IH]; intros last w.
  - cbn. split; [|reflexivity].
    shape_split.
    + exists 0%nat. reflexivity.
    + constructor.
    + intros pre i post H; destruct pre; discriminate.
    + intros pre i post r H; destruct pre; discriminate.
    + intros r _ H. contradiction.
    + reflexivity.
  - rewrite try_backends_cons. cbv zeta.
    destruct (AudioBackend.play b file_path volume timeout w)
      as [[[r|e] w1] inner].
    + destruct (PlaybackStatus_eqb (status r) SUCCESS) eqn:Hs.
      * apply PlaybackStatus_eqb_eq in Hs. cbn. split; [|discriminate].
        shape_split.
        -- exists 1%nat. reflexivity.
        -- repeat constructor.
        -- intros pre i post H Hpost. apply singleton_split in H.
           destruct H as (_ & _ & ->). contradiction.
        -- intros pre i post r' H Hi _. apply singleton_split in H.
           destruct H as (_ & -> & ->). cbn in Hi. split; congruence.
        -- intros r' H _. injection H as <-.
           eexists [], _. split; reflexivity.
        -- intros r' H Hn. injection H as <-. contradiction.
      * apply PlaybackStatus_eqb_neq in Hs.
        specialize (IH (Some r) w1).
        destruct (AudioPlayer.try_backends self file_path (Some r) rest w1)
          as [[o w2] t2].
        destruct IH as [(Hpre & Hargs & Hbut & Hsucc & Hlast & Hall) Hnil].
        cbn [invocations]. split; [|discriminate].
        set (i0 := mkInvocation (AudioBackend.name b) file_path volume
                     timeout (Ret r)).
        shape_split.
        -- destruct Hpre as [n Hn]. exists (S n). cbn. rewrite Hn.
           reflexivity.
        -- constructor; [repeat split|exact Hargs].
        -- intros pre i post H Hpost. destruct pre as [|j pre].
           ++ injection H as <- _. exists r. split; [reflexivity|exact Hs].
           ++ injection H as _ H. eapply Hbut; eassumption.
        -- intros pre i post r' H Hi Hr'. destruct pre as [|j pre].
           ++ injection H as <- _. cbn in Hi. congruence.
           ++ injection H as _ H. eapply Hsucc; eassumption.
        -- intros r' Ho _.
           destruct (invocations t2) as [|j rest'] eqn:Ht2.
           ++ rewrite (Hnil eq_refl) in Ho. injection Ho as <-.
              exists [], i0. split; reflexivity.
           ++ destruct (Hlast r' Ho) as (pre & i & Hi & Hout);
                [discriminate|].
              exists (i0 :: pre), i. rewrite Hi. split; [reflexivity|].
              exact Hout.
        -- intros r' Ho Hr'. cbn. rewrite (Hall r' Ho Hr'). reflexivity.
    + cbn. split; [|discriminate].
      shape_split.
      * exists 1%nat. reflexivity.
      * repeat constructor.
      * intros pre i post H Hpost. apply singleton_split in H.
        destruct H as (_ & _ & ->). contradiction.
      * intros pre i post r' H Hi _. apply singleton_split in H.
        destruct H as (_ & -> & ->). discriminate.
      * intros r H. discriminate.
      * intros r H. discriminate.
Qed.
End Loop.

Section Player.
Context {P : Platform}.
Variable self : AudioPlayer.t.

#[local] Abbreviation default_sound := (AudioPlayer._default_sound_path self).
#[local] Abbreviation cfg := (AudioPlayer.config self).

Lemma play_with_backends_nil file_path w :
  AudioPlayer.backends self = [] ->
  AudioPlayer._play_with_backends self file_path w
  = (Ret (result FAILED "No audio backends available" None), w, []).
Proof.
  intro H. unfold AudioPlayer._play_with_backends. rewrite H. reflexivity.
Qed.

Lemma play_with_backends_shape file_path w :
  match AudioPlayer._play_with_backends self file_path w with
  | (o, _, tr) =>
      loop_shape self file_path (AudioPlayer.backends self) o
        (invocations tr)
      /\ (forall r, o = Ret r -> status r = SUCCESS -> invocations tr <> [])
  end.
Proof.
  unfold AudioPlayer._play_with_backends.
  destruct (AudioPlayer.backends self) as [|b bs] eqn:Hb.
  - cbn. split.
    + unfold loop_shape.
      refine (conj _ (conj _ (conj _ (conj _ (conj _ _))))).
      * exists 0%nat. reflexivity.
      * constructor.
      * intros pre i post H; destruct pre; discriminate.
      * intros pre i post r H; destruct pre; discriminate.
      * intros r _ H. contradiction.
      * reflexivity.
    + intros r H Hs. injection H as <-. discriminate.
  - pose proof (try_backends_shape self file_path (b :: bs) None w) as H.
    destruct (AudioPlayer.try_backends self file_path None (b :: bs) w)
      as [[o w1] tr].
    destruct H as [Hshape Hnil]. split; [exact Hshape|].
    intros r Ho Hs Hinv. rewrite (Hnil Hinv) in Ho. injection Ho as <-.
    discriminate.
Qed.

Lemma try_backends_events file_path rest : forall last w,
  Forall loop_event (snd (AudioPlayer.try_backends self file_path last rest w)).
Proof.
  induction rest as [|b rest IH]; intros last w.
  - constructor.
  - rewrite try_backends_cons. cbv zeta.
    destruct (AudioBackend.play b file_path _ _ w) as [[[r|e] w1] inner].
    + destruct (PlaybackStatus_eqb (status r) SUCCESS).
      * repeat constructor.
      * specialize (IH (Some r) w1).
        destruct (AudioPlayer.try_backends self file_path (Some r) rest w1)
          as [[o w2] t2].
        repeat (constructor; [exact I|]). exact IH.
    + repeat constructor.
Qed.

Lemma play_with_backends_events file_path w :
  Forall loop_event (snd (AudioPlayer._play_with_backends self file_path w)).
Proof.
  unfold AudioPlayer._play_with_backends.
  destruct (AudioPlayer.backends self); [constructor|].
  apply try_backends_events.
Qed.

Lemma loop_event_not_info tr msg :
  Forall loop_event tr -> ~ In (Log INFO msg) tr.
Proof.
  intros H Hin. rewrite Forall_forall in H. exact (H _ Hin).
Qed.

(** [play_notification], one phase at a time. *)
Lemma play_notification_run custom_path w :
  AudioPlayer.play_notification self custom_path w =
  let '(audio_path, use_custom) :=
    AudioPlayer.choose_audio self custom_path in
  match AudioPlayer._play_with_backends self audio_path w with
  | (Raise e, w1, t1) =>
      (Raise e, w1, playing_line audio_path use_custom :: t1)
  | (Ret r, w1, t1) =>
      if negb (PlaybackStatus_eqb (status r) SUCCESS)
         && use_custom && enable_fallback cfg
         && negb (Path_eqb audio_path default_sound)
      then
        match AudioPlayer._play_with_backends self default_sound w1 with
        | (Raise e, w2, t2) =>
            (Raise e, w2,
             playing_line audio_path use_custom :: t1
               ++ fallback_line :: t2)
        | (Ret r2, w2, t2) =>
            (Ret (if PlaybackStatus_eqb (status r2) SUCCESS
                  then {| status := FALLBACK_USED;
                          message := "Custom audio failed, used fallback: "
                                       ++ message r;
                          duration_ms := duration_ms r2;
                          backend_used := backend_used r2;
                          fallback_used := true |}
                  else r),
             w2,
             playing_line audio_path use_custom :: t1
               ++ fallback_line :: t2)
        end
      else (Ret r, w1, playing_line audio_path use_custom :: t1)
  end.
Proof.
  unfold AudioPlayer.play_notification.
  destruct (AudioPlayer.choose_audio self custom_path)
    as [audio_path use_custom].
  unfold bind at 1. unfold emit at 1. unfold bind at 1.
  destruct (AudioPlayer._play_with_backends self audio_path w)
    as [[[r|e] w1] t1]; [|reflexivity].
  destruct (negb (PlaybackStatus_eqb (status r) SUCCESS)
            && use_custom && enable_fallback cfg
            && negb (Path_eqb audio_path default_sound)).
  - unfold bind, emit.
    destruct (AudioPlayer._play_with_backends self default_sound w1)
      as [[[r2|e2] w2] t2]; [|reflexivity].
    destruct (PlaybackStatus_eqb (status r2) SUCCESS); cbn;
      rewrite ?app_nil_r; reflexivity.
  - cbn. rewrite ?app_nil_r. reflexivity.
Qed.

End Player.

(** ** Computations that return, and the exceptions that escape *)

Section Returns.
Context {P : Platform}.



Lemma returns_ask {E A} (q : World -> A) : returns (@ask _ E A q).
Proof. intro w. exists (q w), w, []. reflexivity. Qed.









(** The registry that the constructor builds holds built-in backends
    only. *)
Lemma setup_backends_builtin w backends w' tr :
  AudioPlayer._setup_backends w = (Ret backends, w', tr) ->
  Forall builtin backends.
Proof.
  unfold AudioPlayer._setup_backends, bind, within.
  destruct (AFPlayBackend.is_available w) as [[[afplay_ok|e] w1] t1];
    [|discriminate].
  assert (Hfirst : exists bs1 w2 u,
             (if afplay_ok
              then bind (emit (Log DEBUG "AFPlay backend available"))
                     (fun _ => ret [AFPlayBackend.as_backend])
              else ret []) w1 = (Ret bs1, w2, u) /\ Forall builtin bs1).
  { destruct afplay_ok; cbn; eexists _, _, _; (split; [reflexivity|]).
    - constructor; [left; reflexivity|constructor].
    - constructor. }
  destruct Hfirst as (bs1 & w2 & u & E1 & Hbs1).
  unfold bind in E1. rewrite E1.
  unfold SimpleAudioBackend.is_available, try_except, bind, call, ret.
  cbn [SimpleAudioBackend._simpleaudio].
  destruct (import_simpleaudio w2) as [[e|m] w3]; cbn.
  - destruct (is_ImportError e); cbn; [|discriminate].
    destruct bs1; cbn; intro H; injection H as <- _ _; assumption.
  - assert (Hall : Forall builtin
              (bs1 ++ [SimpleAudioBackend.as_backend
                         {| SimpleAudioBackend._simpleaudio := Some m |}])).
    { apply Forall_app. split; [exact Hbs1|].
      constructor; [right; exists m; reflexivity|constructor]. }
    destruct (bs1 ++ _) eqn:Hb; cbn; intro H; injection H as <- _ _;
      assumption.
Qed.





End Returns.

Lemma append_empty_r (s : string) : (s ++ "")%string = s.
Proof. induction s as [|c s IH]; cbn; [|rewrite IH]; reflexivity. Qed.

(** ** The fallback test *)

Section Fallback.
Context {P : Platform}.

Lemma Path_eqb_neq (p q : Path) : Path_eqb p q = false <-> p <> q.
Proof.
  pose proof (Path_eqb_eq p q) as H. destruct (Path_eqb p q).
  - split; [discriminate|]. intros Hn. exfalso. apply Hn, H. reflexivity.
  - split; [|reflexivity]. intros _ Heq. apply H in Heq. discriminate.
Qed.

(** The condition of the [if] that guards the fallback. *)
Lemma fallback_test_true (r : PlaybackResult) (use_custom enabled : bool)
    (audio_path default_sound : Path) :
  negb (PlaybackStatus_eqb (status r) SUCCESS) && use_custom && enabled
    && negb (Path_eqb audio_path default_sound) = true
  <-> status r <> SUCCESS /\ use_custom = true /\ enabled = true
      /\ audio_path <> default_sound.
Proof.
  rewrite !andb_true_iff, !negb_true_iff, PlaybackStatus_eqb_neq,
    Path_eqb_neq.
  tauto.
Qed.

(** The loop reads the volume and the timeout of the configuration, and
    nothing else of it. *)
Lemma try_backends_custom_sound_path self path file_path rest : forall last w,
  AudioPlayer.try_backends (with_custom_sound_path self path) file_path
    last rest w
  = AudioPlayer.try_backends self file_path last rest w.
Proof.
  induction rest as [|b rest IH]; intros last w; [reflexivity|].
  rewrite !try_backends_cons. cbn.
  destruct (AudioBackend.play b file_path _ _ w) as [[[r|e] w1] inner];
    [|reflexivity].
  destruct (PlaybackStatus_eqb (status r) SUCCESS); [reflexivity|].
  rewrite IH. reflexivity.
Qed.

Lemma play_with_backends_custom_sound_path self path file_path w :
  AudioPlayer._play_with_backends (with_custom_sound_path self path)
    file_path w
  = AudioPlayer._play_with_backends self file_path w.
Proof.
  unfold AudioPlayer._play_with_backends. cbn.
  destruct (AudioPlayer.backends self); [reflexivity|].
  apply try_backends_custom_sound_path.
Qed.

End Fallback.

(** ** Where an exception comes from *)

Section Raising.
Context {P : Platform}.



Lemma try_backends_raise_last self file_path rest : forall last w e w' tr,
  AudioPlayer.try_backends self file_path last rest w = (Raise e, w', tr) ->
  exists pre i, invocations tr = pre ++ [i] /\ inv_outcome i = Raise e.
Proof.
  induction rest as [|b rest IH]; intros last w e w' tr.
  - cbn. discriminate.
  - rewrite try_backends_cons. cbv zeta.
    destruct (AudioBackend.play b file_path _ _ w) as [[[r|e1] w1] inner].
    + destruct (PlaybackStatus_eqb (status r) SUCCESS); [discriminate|].
      destruct (AudioPlayer.try_backends self file_path (Some r) rest w1)
        as [[o w2] t2] eqn:Hrest.
      intros H. injection H as -> _ <-.
      destruct (IH _ _ _ _ _ Hrest) as (pre & i & Hi & Ho).
      cbn [invocations]. rewrite Hi.
      eexists (_ :: pre), i. split; [reflexivity|exact Ho].
    + intros H. injection H as -> _ <-.
      eexists [], _. split; reflexivity.
Qed.

Lemma play_with_backends_raise_last self file_path w e w' tr :
  AudioPlayer._play_with_backends self file_path w = (Raise e, w', tr) ->
  exists pre i, invocations tr = pre ++ [i] /\ inv_outcome i = Raise e.
Proof.
  unfold AudioPlayer._play_with_backends.
  destruct (AudioPlayer.backends self); [discriminate|].
  apply try_backends_raise_last.
Qed.

End Raising.

(** * The claims *)

Section Claims.
Context {P : Platform}.

(** C1, as amended.  With a registry that is not empty, the asset on which
    [play_notification] first calls a backend is: the default asset when the
    caller gives no override ([None] or the empty string); the override when
    one is given and no custom sound path is configured; the configured
    custom sound path, not the override, when both are given. *)
Theorem play_notification_primary_asset
    (self : AudioPlayer.t) (custom_path : option string) (w : World)
    (b : AudioBackend.t) (bs : list AudioBackend.t) :
  AudioPlayer.backends self = b :: bs ->
  (truthy custom_path = false ->
     primary_asset self custom_path w
     = Some (AudioPlayer._default_sound_path self))
  /\ (forall c, custom_path = Some c -> c <> "" ->
        truthy (custom_sound_path (AudioPlayer.config self)) = false ->
        primary_asset self custom_path w = Some (PathOf c))
  /\ (forall c s, custom_path = Some c -> c <> "" ->
        custom_sound_path (AudioPlayer.config self) = Some s -> s <> "" ->
        primary_asset self custom_path w = Some (PathOf s)).
Proof.
  intros Hb.
  assert (Hfirst : forall audio_path use_custom,
            AudioPlayer.choose_audio self custom_path
            = (audio_path, use_custom) ->
            primary_asset self custom_path w = Some audio_path).
  { intros audio_path use_custom Hc. unfold primary_asset.
    rewrite play_notification_run, Hc.
    unfold AudioPlayer._play_with_backends at 1. rewrite Hb.
    rewrite try_backends_cons. cbv zeta.
    destruct (AudioBackend.play b audio_path _ _ w) as [[[r|e] w1] inner];
      [|reflexivity].
    destruct (PlaybackStatus_eqb (status r) SUCCESS) eqn:Hs.
    - rewrite Hs. reflexivity.
    - destruct (AudioPlayer.try_backends self audio_path (Some r) bs w1)
        as [[[r'|e'] w2] t2]; [|reflexivity].
      destruct (negb _ && use_custom && _ && _); [|reflexivity].
      destruct (AudioPlayer._play_with_backends self _ w2)
        as [[[r2|e2] w3] t3]; reflexivity. }
  split; [|split].
  - intros Hn. apply (Hfirst _ false).
    unfold AudioPlayer.choose_audio. rewrite Hn. reflexivity.
  - intros c -> Hc Hn. apply (Hfirst _ true).
    unfold AudioPlayer.choose_audio.
    rewrite (proj2 (truthy_Some c) Hc), Hn. reflexivity.
  - intros c s -> Hc Hs Hn. apply (Hfirst _ true).
    unfold AudioPlayer.choose_audio.
    rewrite (proj2 (truthy_Some c) Hc), Hs, (proj2 (truthy_Some s) Hn).
    reflexivity.
Qed.


(** C6, as amended.  With an empty registry [play_notification] returns,
    without raising, a result of status [FAILED] whose message is
    "No audio backends available"; no backend is called and the host is
    left as it was. *)
Theorem play_notification_empty_registry
    (self : AudioPlayer.t) (custom_path : option string) (w : World) :
  AudioPlayer.backends self = [] ->
  exists tr,
    AudioPlayer.play_notification self custom_path w
    = (Ret {| status := FAILED; message := "No audio backends available";
              duration_ms := None; backend_used := None;
              fallback_used := false |}, w, tr)
    /\ invocations tr = [].
Proof.
  intros Hb. rewrite play_notification_run.
  destruct (AudioPlayer.choose_audio self custom_path)
    as [audio_path use_custom].
  rewrite (play_with_backends_nil self audio_path w Hb).
  destruct (negb _ && use_custom && _ && _).
  - rewrite (play_with_backends_nil self _ w Hb). cbn.
    eexists. split; reflexivity.
  - eexists. split; reflexivity.
Qed.

(** C2.  After a primary attempt that returned [r1], the fallback attempt on
    the default asset is made exactly when [r1] is not a success, the asset
    is custom (the caller passed a path), fallback is enabled and the asset
    is not the default asset.
    When it is made the run is the primary attempt, the fallback line and
    the attempt on the default asset; otherwise it is the primary attempt
    alone and [r1] is returned.  With fallback disabled [r1] is returned
    and, when the primary asset is not the default one, no backend is
    called on the default asset. *)
Theorem fallback_iff_four_conditions
    (self : AudioPlayer.t) (custom_path : option string) (w : World)
    (audio_path : Path) (use_custom : bool)
    (r1 : PlaybackResult) (w1 : World) (t1 : list Event) :
  AudioPlayer.choose_audio self custom_path = (audio_path, use_custom) ->
  AudioPlayer._play_with_backends self audio_path w = (Ret r1, w1, t1) ->
  let default_sound := AudioPlayer._default_sound_path self in
  let enabled := enable_fallback (AudioPlayer.config self) in
  let triggered :=
    status r1 <> SUCCESS /\ use_custom = true /\ enabled = true
    /\ audio_path <> default_sound in
  match AudioPlayer.play_notification self custom_path w with
  | (o, w', tr) =>
      use_custom = truthy custom_path
      /\ (In fallback_line tr <-> triggered)
      /\ (triggered ->
          match AudioPlayer._play_with_backends self default_sound w1 with
          | (_, w2, t2) =>
              w' = w2
              /\ tr = playing_line audio_path use_custom :: t1
                        ++ fallback_line :: t2
          end)
      /\ (~ triggered ->
          o = Ret r1 /\ w' = w1
          /\ tr = playing_line audio_path use_custom :: t1)
      /\ (enabled = false ->
          o = Ret r1
          /\ (audio_path <> default_sound ->
              Forall (fun i => inv_path i <> default_sound)
                (invocations tr)))
  end.
Proof.
  intros Hc Hrun default_sound enabled triggered.
  assert (Hcustom : use_custom = truthy custom_path).
  { revert Hc. unfold AudioPlayer.choose_audio.
    destruct (truthy custom_path);
      [destruct (truthy (custom_sound_path (AudioPlayer.config self)))|];
      cbn; intro H; injection H as _ <-; reflexivity. }
  rewrite play_notification_run, Hc, Hrun.
  pose proof (fallback_test_true r1 use_custom enabled audio_path
                default_sound) as Htest.
  fold default_sound enabled.
  assert (Hquiet : ~ In fallback_line t1).
  { apply loop_event_not_info.
    pose proof (play_with_backends_events self audio_path w) as H.
    rewrite Hrun in H. exact H. }
  assert (Hon : Forall (fun i => inv_path i = audio_path) (invocations t1)).
  { pose proof (play_with_backends_shape self audio_path w) as H.
    rewrite Hrun in H. destruct H as [(_ & Hargs & _) _].
    eapply Forall_impl; [|exact Hargs]. intros i Hi. apply Hi. }
  destruct (negb (PlaybackStatus_eqb (status r1) SUCCESS) && use_custom
            && enabled && negb (Path_eqb audio_path default_sound)) eqn:Ht.
  - assert (Htrig : triggered) by (apply Htest; reflexivity).
    destruct (AudioPlayer._play_with_backends self default_sound w1)
      as [[[r2|e2] w2] t2].
    + split; [exact Hcustom|]. split; [|split; [|split]].
      * split; [intros _; exact Htrig|]. intros _. right.
        apply in_or_app. right. left. reflexivity.
      * intros _. split; reflexivity.
      * intros Hn. contradiction.
      * intros Hoff. destruct Htrig as (_ & _ & Hen & _). congruence.
    + split; [exact Hcustom|]. split; [|split; [|split]].
      * split; [intros _; exact Htrig|]. intros _. right.
        apply in_or_app. right. left. reflexivity.
      * intros _. split; reflexivity.
      * intros Hn. contradiction.
      * intros Hoff. destruct Htrig as (_ & _ & Hen & _). congruence.
  - assert (Hnot : ~ triggered).
    { intros Htrig. apply Htest in Htrig. congruence. }
    split; [exact Hcustom|]. split; [|split; [|split]].
    + split; [|intros Htrig; contradiction].
      intros [Heq|Hin]; [discriminate|contradiction].
    + intros Htrig. contradiction.
    + intros _. repeat split.
    + intros _. split; [reflexivity|]. intros Hne. cbn [invocations].
      eapply Forall_impl; [|exact Hon]. intros i Hi. congruence.
Qed.

(** C3.  When the primary attempt returned [r1], not a success, the
    fallback is triggered and the attempt on the default asset returned a
    success [r2], [play_notification] returns a result of status
    [FALLBACK_USED], with its fallback flag set and the message of [r1]
    inside its own message, after "Custom audio failed, used fallback: ";
    the backend named is the one that played the default asset. *)
Theorem fallback_success_is_relabelled
    (self : AudioPlayer.t) (custom_path : option string) (w : World)
    (audio_path : Path) (use_custom : bool)
    (r1 r2 : PlaybackResult) (w1 w2 : World) (t1 t2 : list Event) :
  AudioPlayer.choose_audio self custom_path = (audio_path, use_custom) ->
  AudioPlayer._play_with_backends self audio_path w = (Ret r1, w1, t1) ->
  status r1 <> SUCCESS ->
  use_custom = true ->
  enable_fallback (AudioPlayer.config self) = true ->
  audio_path <> AudioPlayer._default_sound_path self ->
  AudioPlayer._play_with_backends self
    (AudioPlayer._default_sound_path self) w1 = (Ret r2, w2, t2) ->
  status r2 = SUCCESS ->
  exists r,
    fst (fst (AudioPlayer.play_notification self custom_path w)) = Ret r
    /\ status r = FALLBACK_USED
    /\ fallback_used r = true
    /\ message r
       = ("Custom audio failed, used fallback: " ++ message r1)%string
    /\ (exists pre post, message r = (pre ++ message r1 ++ post)%string)
    /\ backend_used r = backend_used r2.
Proof.
  intros Hc Hrun Hs1 Hu He Hp Hfb Hs2.
  rewrite play_notification_run, Hc, Hrun.
  rewrite (proj2 (fallback_test_true r1 use_custom _ audio_path _));
    [|auto].
  rewrite Hfb, (proj2 (PlaybackStatus_eqb_eq _ _) Hs2).
  eexists. split; [reflexivity|]. cbn.
  repeat split.
  exists "Custom audio failed, used fallback: ", "".
  rewrite append_empty_r. reflexivity.
Qed.

(** C4.  When the primary attempt returned [r1], not a success, the
    fallback is triggered and the attempt on the default asset returned
    [r2], not a success either, [play_notification] returns [r1] itself:
    status, message, backend name and fallback flag are those of the primary
    failure. *)
Theorem fallback_failure_returns_primary
    (self : AudioPlayer.t) (custom_path : option string) (w : World)
    (audio_path : Path) (use_custom : bool)
    (r1 r2 : PlaybackResult) (w1 w2 : World) (t1 t2 : list Event) :
  AudioPlayer.choose_audio self custom_path = (audio_path, use_custom) ->
  AudioPlayer._play_with_backends self audio_path w = (Ret r1, w1, t1) ->
  status r1 <> SUCCESS ->
  use_custom = true ->
  enable_fallback (AudioPlayer.config self) = true ->
  audio_path <> AudioPlayer._default_sound_path self ->
  AudioPlayer._play_with_backends self
    (AudioPlayer._default_sound_path self) w1 = (Ret r2, w2, t2) ->
  status r2 <> SUCCESS ->
  fst (fst (AudioPlayer.play_notification self custom_path w)) = Ret r1.
Proof.
  intros Hc Hrun Hs1 Hu He Hp Hfb Hs2.
  rewrite play_notification_run, Hc, Hrun.
  rewrite (proj2 (fallback_test_true r1 use_custom _ audio_path _));
    [|auto].
  rewrite Hfb, (proj2 (PlaybackStatus_eqb_neq _ _) Hs2). reflexivity.
Qed.

(** C7, as amended.  On a path that does not exist, [AFPlayBackend.play]
    returns [FILE_NOT_FOUND] without any call to its mechanism, and so does
    [SimpleAudioBackend.play] when the module is loaded.  When the module is
    not loaded [SimpleAudioBackend.play] imports it first: if the import
    succeeds the result is [FILE_NOT_FOUND] and nothing else was called; if
    it fails with [ImportError] the result is [FAILED], "simpleaudio not
    available", whether the path exists or not. *)
Theorem play_on_missing_file
    (file_path : Path) (volume : Q) (timeout : Z) (w : World) :
  (path_exists file_path w = inr false ->
   AFPlayBackend.play file_path volume timeout w
   = (Ret (result FILE_NOT_FOUND
             ("Audio file not found: " ++ str_path file_path)
             (Some "afplay")), w, [])
   /\ (forall m,
         let self := {| SimpleAudioBackend._simpleaudio := Some m |} in
         SimpleAudioBackend.play self file_path volume timeout w
         = (Ret (result FILE_NOT_FOUND
                   ("Audio file not found: " ++ str_path file_path)
                   (Some "simpleaudio"), self), w, []))
   /\ (forall m w1,
         import_simpleaudio w = (inr m, w1) ->
         path_exists file_path w1 = inr false ->
         SimpleAudioBackend.play SimpleAudioBackend.__init__
           file_path volume timeout w
         = (Ret (result FILE_NOT_FOUND
                   ("Audio file not found: " ++ str_path file_path)
                   (Some "simpleaudio"),
                 {| SimpleAudioBackend._simpleaudio := Some m |}),
            w1, [EvImport])))
  /\ (forall e w1,
        import_simpleaudio w = (inl e, w1) ->
        is_ImportError e = true ->
        SimpleAudioBackend.play SimpleAudioBackend.__init__
          file_path volume timeout w
        = (Ret (result FAILED "simpleaudio not available"
                  (Some "simpleaudio"), SimpleAudioBackend.__init__),
           w1, [EvImport])).
Proof.
  split; [intros Hmissing; split; [|split]|].
  - unfold AFPlayBackend.play, bind, query. rewrite Hmissing. reflexivity.
  - intros m self. unfold SimpleAudioBackend.play, bind, query, ret. cbn.
    rewrite Hmissing. reflexivity.
  - intros m w1 Himport Hmissing1.
    unfold SimpleAudioBackend.play, SimpleAudioBackend.is_available,
      bind, try_except, call, query, ret. cbn.
    rewrite Himport. cbn. rewrite Hmissing1. reflexivity.
  - intros e w1 Himport He.
    unfold SimpleAudioBackend.play, SimpleAudioBackend.is_available,
      bind, try_except, call, query, ret. cbn.
    rewrite Himport. cbn. rewrite He. reflexivity.
Qed.

(** C8, the part that fails.  When the timer of [wait_for] fires on a
    [SimpleAudioBackend] whose module is loaded, [play] returns [TIMEOUT],
    but only after the job on the worker thread has run whole: the state of
    the host and the calls made are those of the complete job, and nothing
    stops it. *)
Theorem SimpleAudioBackend_timeout_runs_job_whole
    (m : SimpleAudioModule) (file_path : Path) (volume : Q) (timeout : Z)
    (w w1 w2 w3 : World) (o : Outcome PlaybackResult)
    (job : list MechEvent) :
  let self := {| SimpleAudioBackend._simpleaudio := Some m |} in
  path_exists file_path w = inr true ->
  get_event_loop w = (inr tt, w1) ->
  ThreadPoolExecutor w1 = (inr tt, w2) ->
  SimpleAudioBackend._play_sync self file_path volume w2 = (o, w3, job) ->
  wait_for_expired timeout w2 w3 = true ->
  SimpleAudioBackend.play self file_path volume timeout w
  = (Ret (result TIMEOUT
            ("Audio playback timed out after " ++ str_int timeout
               ++ " seconds") (Some "simpleaudio"), self),
     w3,
     [EvGetEventLoop; EvExecutor] ++ job ++ [EvExecutorShutdown]).
Proof.
  intros self Hpresent Hloop Hexec Hjob Hexpired.
  unfold SimpleAudioBackend.play. subst self.
  cbn [SimpleAudioBackend._simpleaudio].
  unfold SimpleAudioBackend.run_in_executor_wait_for.
  unfold bind, try_except, call, query, ret. cbn.
  rewrite Hpresent. cbn. rewrite Hloop, Hexec.
  unfold bind, try_except, call, ret in Hjob. cbn in Hjob.
  rewrite Hjob, Hexpired. cbn. rewrite !app_nil_r. reflexivity.
Qed.

(** The sibling path: on a timeout [AFPlayBackend.play] kills the process
    and reaps it before it returns [TIMEOUT]. *)
Lemma AFPlayBackend_timeout_kills
    (file_path : Path) (volume : Q) (timeout : Z)
    (w w1 w2 w3 w4 : World) (process : Process) (e : Exn) :
  let cmd := ["afplay"]
               ++ (if negb (Qeq_bool volume 1)
                   then ["-v"; str_float volume] else [])
               ++ [str_path file_path] in
  path_exists file_path w = inr true ->
  create_subprocess_exec cmd w = (inr process, w1) ->
  communicate process timeout w1 = (inl e, w2) ->
  is_TimeoutError e = true ->
  process_kill process w2 = (inr tt, w3) ->
  process_wait process w3 = (inr tt, w4) ->
  AFPlayBackend.play file_path volume timeout w
  = (Ret (result TIMEOUT
            ("Audio playback timed out after " ++ str_int timeout
               ++ " seconds") (Some "afplay")),
     w4,
     [MLog DEBUG ("Executing afplay command: " ++ join_spaces cmd);
      EvSpawn cmd; EvCommunicate timeout; EvKill; EvWait]).
Proof.
  intros cmd Hpresent Hspawn Hcomm He Hkill Hwait.
  unfold AFPlayBackend.play, bind, try_except, call, query, ask, emit, ret.
  rewrite Hpresent. cbn [negb]. fold cmd.
  rewrite Hspawn, Hcomm, He, Hkill, Hwait. reflexivity.
Qed.


(** C10.  When the caller passes no path ([None], or the empty string),
    whatever custom sound path is configured, [play_notification] logs that
    it plays the default asset,
    not as a custom one, makes the attempt on the default asset and returns
    its outcome: there is no fallback phase.  When the caller passes a path
    that is not empty and a custom sound path that is not empty is
    configured, the run starts with the attempt on the configured path. *)
Theorem play_notification_configured_path
    (self : AudioPlayer.t) (w : World) :
  (forall configured custom_path,
     truthy custom_path = false ->
     AudioPlayer.play_notification
       (with_custom_sound_path self configured) custom_path w
     = (emit (playing_line (AudioPlayer._default_sound_path self) false) ;;
        AudioPlayer._play_with_backends self
          (AudioPlayer._default_sound_path self)) w)
  /\ (forall c s, c <> "" -> s <> "" ->
        exists rest,
          snd (AudioPlayer.play_notification
                 (with_custom_sound_path self (Some s)) (Some c) w)
          = playing_line (PathOf s) true
              :: snd (AudioPlayer._play_with_backends self (PathOf s) w)
              ++ rest).
Proof.
  split.
  - intros configured custom_path Hnone. rewrite play_notification_run.
    unfold AudioPlayer.choose_audio. rewrite Hnone. cbn [andb].
    rewrite play_with_backends_custom_sound_path.
    cbn [AudioPlayer._default_sound_path with_custom_sound_path].
    unfold bind, emit.
    destruct (AudioPlayer._play_with_backends self _ w)
      as [[[r|e] w1] t1]; [|reflexivity].
    rewrite andb_false_r. reflexivity.
  - intros c s Hc Hs. rewrite play_notification_run.
    unfold AudioPlayer.choose_audio.
    cbn [AudioPlayer.config with_custom_sound_path custom_sound_path].
    rewrite (proj2 (truthy_Some c) Hc), (proj2 (truthy_Some s) Hs).
    cbn [andb]. rewrite play_with_backends_custom_sound_path.
    destruct (AudioPlayer._play_with_backends self (PathOf s) w)
      as [[[r|e] w1] t1]; [|exists []; cbn; rewrite app_nil_r; reflexivity].
    destruct (negb _ && true && _ && _);
      [|exists []; cbn; rewrite app_nil_r; reflexivity].
    rewrite play_with_backends_custom_sound_path.
    cbn [AudioPlayer._default_sound_path with_custom_sound_path].
    destruct (AudioPlayer._play_with_backends self _ w1)
      as [[[r2|e2] w2] t2]; eexists; reflexivity.
Qed.

End Claims.

(** * The claims on the test host *)

Import TestHost.

Lemma play_notification_primary_asset_witness :
  AudioPlayer.backends (player config_custom [double "a" []])
  = [double "a" []]
  /\ primary_asset (player config_custom [double "a" []])
       (Some "/tmp/mine.wav") host0
     = Some "/etc/chime.wav".
Proof.
  split; [reflexivity|].
  refine (proj2 (proj2
            (play_notification_primary_asset
               (player config_custom [double "a" []])
               (Some "/tmp/mine.wav") host0 (b := double "a" []) (bs := [])
               eq_refl))
            "/tmp/mine.wav" "/etc/chime.wav" eq_refl _ eq_refl _);
    discriminate.
Defined.

(** C1 as stated fails: an override is given, and the asset of the primary
    attempt is the configured custom sound path. *)
Lemma override_is_not_the_primary_asset :
  primary_asset (player config_custom [double "a" []])
    (Some "/tmp/mine.wav") host0
  <> Some (PathOf "/tmp/mine.wav").
Proof. vm_compute. discriminate. Qed.

Lemma fallback_iff_four_conditions_witness :
  let self := player config0 [double "a" []; double "b" [default_sound]] in
  AudioPlayer.choose_audio self (Some "/tmp/mine.wav")
  = ("/tmp/mine.wav", true)
  /\ fst (fst (AudioPlayer._play_with_backends self "/tmp/mine.wav" host0))
     = Ret (result FAILED "b cannot play /tmp/mine.wav" (Some "b"))
  /\ In fallback_line
       (snd (AudioPlayer.play_notification self (Some "/tmp/mine.wav")
               host0)).
Proof.
  intros self. split; [reflexivity|]. split; [reflexivity|].
  pose (run1 := AudioPlayer._play_with_backends self "/tmp/mine.wav" host0).
  pose proof (@fallback_iff_four_conditions _ self (Some "/tmp/mine.wav")
                host0 "/tmp/mine.wav" true
                (result FAILED "b cannot play /tmp/mine.wav" (Some "b"))
                (snd (fst run1)) (snd run1) eq_refl eq_refl) as H.
  cbv zeta in H.
  destruct (AudioPlayer.play_notification self (Some "/tmp/mine.wav") host0)
    as [[o w'] tr].
  apply (proj1 (proj2 H)). repeat split; discriminate.
Defined.

Lemma fallback_success_is_relabelled_witness :
  let self := player config0 [double "a" []; double "b" [default_sound]] in
  exists r,
    fst (fst (AudioPlayer.play_notification self (Some "/tmp/mine.wav")
                host0)) = Ret r
    /\ status r = FALLBACK_USED
    /\ fallback_used r = true
    /\ message r
       = "Custom audio failed, used fallback: b cannot play /tmp/mine.wav"
    /\ backend_used r = Some "b".
Proof.
  intros self.
  pose (run1 := AudioPlayer._play_with_backends self "/tmp/mine.wav" host0).
  pose (run2 := AudioPlayer._play_with_backends self default_sound
                  (snd (fst run1))).
  destruct (@fallback_success_is_relabelled _ self (Some "/tmp/mine.wav")
              host0 "/tmp/mine.wav" true
              (result FAILED "b cannot play /tmp/mine.wav" (Some "b"))
              (result SUCCESS "Audio played successfully" (Some "b"))
              (snd (fst run1)) (snd (fst run2)) (snd run1) (snd run2)
              eq_refl eq_refl)
    as (r & Hr & Hs & Hf & Hm & _ & Hb);
    [discriminate|reflexivity|reflexivity|discriminate
    |reflexivity|reflexivity|].
  exists r. repeat split; assumption.
Defined.

Lemma fallback_failure_returns_primary_witness :
  let self := player config0 [double "a" []] in
  fst (fst (AudioPlayer.play_notification self (Some "/tmp/mine.wav") host0))
  = Ret (result FAILED "a cannot play /tmp/mine.wav" (Some "a")).
Proof.
  intros self.
  pose (run1 := AudioPlayer._play_with_backends self "/tmp/mine.wav" host0).
  pose (run2 := AudioPlayer._play_with_backends self default_sound
                  (snd (fst run1))).
  refine (@fallback_failure_returns_primary _ self (Some "/tmp/mine.wav")
            host0 "/tmp/mine.wav" true
            (result FAILED "a cannot play /tmp/mine.wav" (Some "a"))
            (result FAILED
               "a cannot play /pkg/assets/notification.wav" (Some "a"))
            (snd (fst run1)) (snd (fst run2)) (snd run1) (snd run2)
            eq_refl eq_refl _ eq_refl eq_refl _ eq_refl _); discriminate.
Defined.

Lemma play_notification_empty_registry_witness :
  exists tr,
    AudioPlayer.play_notification (player config0 []) (Some "/tmp/mine.wav")
      host0
    = (Ret (result FAILED "No audio backends available" None), host0, tr)
    /\ invocations tr = [].
Proof.
  exact (@play_notification_empty_registry _ (player config0 [])
           (Some "/tmp/mine.wav") host0 eq_refl).
Defined.

(** C6 as stated fails: the message is not "no backends available". *)
Lemma empty_registry_message_differs :
  ~ (exists r w' tr,
       AudioPlayer.play_notification (player config0 []) None host0
       = (Ret r, w', tr)
       /\ status r = FAILED /\ message r = "no backends available").
Proof.
  intros (r & w' & tr & Hrun & _ & Hm).
  vm_compute in Hrun. injection Hrun as <- _ _. discriminate.
Qed.

Lemma play_on_missing_file_witness :
  path_exists "/nope.wav" host0 = inr false
  /\ AFPlayBackend.play "/nope.wav" 1 30 host0
     = (Ret (result FILE_NOT_FOUND "Audio file not found: /nope.wav"
               (Some "afplay")), host0, [])
  /\ SimpleAudioBackend.play SimpleAudioBackend.__init__ "/nope.wav" 1 30
       host0
     = (Ret (result FILE_NOT_FOUND "Audio file not found: /nope.wav"
               (Some "simpleaudio"), loaded), host0, [EvImport])
  /\ SimpleAudioBackend.play SimpleAudioBackend.__init__ "/nope.wav" 1 30
       host_bare
     = (Ret (result FAILED "simpleaudio not available"
               (Some "simpleaudio"), SimpleAudioBackend.__init__),
        host_bare, [EvImport])
  /\ SimpleAudioBackend.play SimpleAudioBackend.__init__ default_sound 1 30
       host_bare
     = (Ret (result FAILED "simpleaudio not available"
               (Some "simpleaudio"), SimpleAudioBackend.__init__),
        host_bare, [EvImport]).
Proof.
  split; [reflexivity|].
  destruct (proj1 (@play_on_missing_file platform "/nope.wav" 1 30 host0)
              eq_refl) as (Hafplay & _ & Himported).
  pose proof (proj2 (@play_on_missing_file platform "/nope.wav" 1 30
                       host_bare)) as Hbare.
  pose proof (proj2 (@play_on_missing_file platform default_sound 1 30
                       host_bare)) as Hpresent.
  split; [exact Hafplay|]. split; [|split].
  - exact (Himported tt host0 eq_refl eq_refl).
  - exact (Hbare _ host_bare eq_refl eq_refl).
  - exact (Hpresent _ host_bare eq_refl eq_refl).
Defined.

(** C7 as stated fails: the path does not exist, and a [SimpleAudioBackend]
    on a host without the library answers [FAILED]. *)
Lemma missing_file_not_always_file_not_found :
  path_exists "/nope.wav" host_bare = inr false
  /\ ~ (exists r self' w' tr,
          SimpleAudioBackend.play SimpleAudioBackend.__init__ "/nope.wav"
            1 30 host_bare = (Ret (r, self'), w', tr)
          /\ status r = FILE_NOT_FOUND).
Proof.
  split; [reflexivity|].
  intros (r & self' & w' & tr & Hrun & Hs).
  vm_compute in Hrun. injection Hrun as <- _ _ _. discriminate.
Qed.

Lemma SimpleAudioBackend_timeout_runs_job_whole_witness :
  path_exists default_sound host0 = inr true
  /\ wait_for_expired 1 host0 (hear default_sound host0) = true
  /\ SimpleAudioBackend.play loaded default_sound 1 1 host0
     = (Ret (result TIMEOUT "Audio playback timed out after 1 seconds"
               (Some "simpleaudio"), loaded),
        hear default_sound host0,
        [EvGetEventLoop; EvExecutor; EvFromWaveFile default_sound; EvPlay;
         EvWaitDone; EvExecutorShutdown]).
Proof.
  split; [reflexivity|]. split; [reflexivity|].
  exact (@SimpleAudioBackend_timeout_runs_job_whole platform tt
           default_sound 1 1 host0 host0 host0 (hear default_sound host0)
           (Ret (result SUCCESS "Audio played successfully"
                   (Some "simpleaudio")))
           [EvFromWaveFile default_sound; EvPlay; EvWaitDone]
           eq_refl eq_refl eq_refl eq_refl eq_refl).
Defined.

(** On the same host and with the same timeout, [afplay] is killed and the
    sound is not heard to the end. *)
Example AFPlayBackend_timeout_on_host0 :
  AFPlayBackend.play default_sound 1 1 host0
  = (Ret (result TIMEOUT "Audio playback timed out after 1 seconds"
            (Some "afplay")),
     kill host0,
     [MLog DEBUG
        "Executing afplay command: afplay /pkg/assets/notification.wav";
      EvSpawn ["afplay"; default_sound]; EvCommunicate 1; EvKill; EvWait]).
Proof. reflexivity. Qed.



Lemma play_notification_configured_path_witness :
  let self := player config0 [double "a" [default_sound]] in
  AudioPlayer.play_notification (with_custom_sound_path self
                                   (Some "/etc/chime.wav")) None host0
  = (Ret (result SUCCESS "Audio played successfully" (Some "a")), host0,
     [Log INFO
        "Playing audio: /pkg/assets/notification.wav (custom=False)";
      Log DEBUG "Trying backend: a";
      Play "a" default_sound (4 # 5) 30
        (Ret (result SUCCESS "Audio played successfully" (Some "a"))) []])
  /\ hd_error
       (snd (AudioPlayer.play_notification
               (with_custom_sound_path self (Some "/etc/chime.wav"))
               (Some "/tmp/mine.wav") host0))
     = Some (Log INFO "Playing audio: /etc/chime.wav (custom=True)").
Proof.
  intros self.
  destruct (@play_notification_configured_path platform self host0)
    as [Hnone Hboth].
  split.
  - rewrite (Hnone _ None eq_refl). reflexivity.
  - destruct (Hboth "/tmp/mine.wav" "/etc/chime.wav") as [rest Hrest];
      [discriminate|discriminate|].
    rewrite Hrest. reflexivity.
Defined.

(** ** Runs on the test host *)

(** The first backend plays the asset: the second one is not called. *)
Example first_success_stops_the_loop :
  map inv_backend
    (invocations
       (snd (AudioPlayer._play_with_backends
               (player config0 [double "a" [default_sound];
                                double "b" [default_sound]])
               default_sound host0)))
  = ["a"].
Proof. reflexivity. Qed.

(** The first backend fails, the second one plays the asset. *)
Example second_backend_is_used :
  fst (fst (AudioPlayer.play_notification
              (player config0 [double "a" []; double "b" [default_sound]])
              None host0))
  = Ret (result SUCCESS "Audio played successfully" (Some "b")).
Proof. reflexivity. Qed.

(** Fallback disabled: the failure of the custom asset is returned and the
    default asset is not tried. *)
Example fallback_disabled_keeps_failure :
  let run := AudioPlayer.play_notification
               (player config_no_fallback [double "a" [default_sound]])
               (Some "/tmp/mine.wav") host0 in
  fst (fst run)
  = Ret (result FAILED "a cannot play /tmp/mine.wav" (Some "a"))
  /\ map inv_path (invocations (snd run)) = ["/tmp/mine.wav"].
Proof. split; reflexivity. Qed.

(** A backend whose [play] raises: the exception leaves
    [play_notification]. *)
Example base_backend_raises :
  fst (fst (AudioPlayer.play_notification
              (player config0 [AudioBackend.base "x"]) None host0))
  = Raise (mkExn NotImplementedError "").
Proof. reflexivity. Qed.

(** The constructor on [host0] registers both backends, [afplay] first. *)
Example init_on_host0 :
  match AudioPlayer.__init__ config0 host0 with
  | (Ret self, _, _) =>
      map AudioBackend.name (AudioPlayer.backends self)
      = ["afplay"; "simpleaudio"]
      /\ AudioPlayer._default_sound_path self = default_sound
  | _ => False
  end.
Proof. split; reflexivity. Qed.

(** * Further properties of the backends and of the player *)

Section Yields.
Context {P : Platform}.

Lemma yields_ret {E A} (a : A) (Q : A -> Prop) :
  Q a -> yields (@ret _ E A a) Q.
Proof. intros H w a' w' tr Hr. injection Hr as <- _ _. exact H. Qed.

Lemma yields_bind {E A B} (m : M E A) (k : A -> M E B)
    (R : A -> Prop) (Q : B -> Prop) :
  yields m R -> (forall a, R a -> yields (k a) Q) -> yields (bind m k) Q.
Proof.
  intros Hm Hk w b w' tr. unfold bind.
  destruct (m w) as [[[a|e] w1] t1] eqn:Em; [|discriminate].
  destruct (k a w1) as [[o w2] t2] eqn:Ek.
  intros H. injection H as -> _ _.
  exact (Hk a (Hm _ _ _ _ Em) _ _ _ _ Ek).
Qed.

Lemma yields_any {E A} (m : M E A) : yields m (fun _ => True).
Proof. intros w a w' tr _. exact I. Qed.

Lemma yields_try_except {E A} (body : M E A) (catches : Exn -> bool)
    (handler : Exn -> M E A) (Q : A -> Prop) :
  yields body Q -> (forall e, yields (handler e) Q) ->
  yields (try_except body catches handler) Q.
Proof.
  intros Hb Hh w a w' tr. unfold try_except.
  destruct (body w) as [[[a0|e] w1] t1] eqn:Eb.
  - intros H. injection H as <- _ _. exact (Hb _ _ _ _ Eb).
  - destruct (catches e); [|discriminate].
    destruct (handler e w1) as [[o w2] t2] eqn:Eh.
    intros H. injection H as -> _ _. exact (Hh e _ _ _ _ Eh).
Qed.

Lemma backend_result_result (name : string) (s : PlaybackStatus)
    (msg : string) :
  s = SUCCESS \/ s = FAILED \/ s = TIMEOUT \/ s = FILE_NOT_FOUND ->
  backend_result name (result s msg (Some name)).
Proof. intros H. repeat split. exact H. Qed.

Lemma AFPlayBackend_play_yields file_path volume timeout :
  yields (AFPlayBackend.play file_path volume timeout)
    (backend_result "afplay").
Proof.
  unfold AFPlayBackend.play.
  eapply yields_bind; [apply yields_any|]. intros present _.
  destruct (negb present).
  { apply yields_ret, backend_result_result. tauto. }
  apply yields_try_except.
  - cbv zeta.
    eapply yields_bind; [apply yields_any|]. intros _ _.
    eapply yields_bind; [apply yields_any|]. intros process _.
    eapply yields_bind with
      (R := fun d => match d with
                     | inl early => backend_result "afplay" early
                     | inr _ => True
                     end).
    + apply yields_try_except.
      * eapply yields_bind; [apply yields_any|]. intros out _.
        apply yields_ret. exact I.
      * intros e.
        eapply yields_bind; [apply yields_any|]. intros _ _.
        eapply yields_bind; [apply yields_any|]. intros _ _.
        apply yields_ret, backend_result_result. tauto.
    + intros [early|[out err]] Hd.
      * apply yields_ret. exact Hd.
      * eapply yields_bind; [apply yields_any|]. intros rc _.
        destruct rc as [[| |]|];
          try (eapply yields_bind; [apply yields_any|]; intros msg _);
          apply yields_ret, backend_result_result; tauto.
  - intros e.
    eapply yields_bind; [apply yields_any|]. intros _ _.
    apply yields_ret, backend_result_result. tauto.
Qed.

Lemma play_sync_yields self file_path volume :
  yields (SimpleAudioBackend._play_sync self file_path volume)
    (backend_result "simpleaudio").
Proof.
  unfold SimpleAudioBackend._play_sync.
  apply yields_try_except.
  - eapply yields_bind; [apply yields_any|]. intros m _.
    eapply yields_bind; [apply yields_any|]. intros wave _.
    eapply yields_bind; [apply yields_any|]. intros play _.
    eapply yields_bind; [apply yields_any|]. intros _ _.
    apply yields_ret, backend_result_result. tauto.
  - intros e. apply yields_ret, backend_result_result. tauto.
Qed.

Lemma run_in_executor_wait_for_yields {A} (job : M MechEvent A) timeout
    (Q : A -> Prop) :
  yields job Q ->
  yields (SimpleAudioBackend.run_in_executor_wait_for job timeout) Q.
Proof.
  intros Hjob. unfold SimpleAudioBackend.run_in_executor_wait_for.
  eapply yields_bind; [apply yields_any|]. intros _ _ w a w' tr.
  destruct (job w) as [[o w1] t] eqn:Ej.
  destruct (wait_for_expired timeout w w1); [discriminate|].
  destruct (wait_for_error timeout w); [discriminate|].
  intros H. injection H as -> _ _. exact (Hjob _ _ _ _ Ej).
Qed.

Lemma SimpleAudioBackend_play_yields self file_path volume timeout :
  yields (SimpleAudioBackend.play self file_path volume timeout)
    (fun x => backend_result "simpleaudio" (fst x)).
Proof.
  unfold SimpleAudioBackend.play.
  eapply yields_bind; [apply yields_any|]. intros [available self'] _.
  destruct (negb available).
  { apply yields_ret, backend_result_result. tauto. }
  eapply yields_bind; [apply yields_any|]. intros present _.
  destruct (negb present).
  { apply yields_ret, backend_result_result. tauto. }
  eapply yields_bind with (R := backend_result "simpleaudio").
  - apply yields_try_except.
    + eapply yields_bind; [apply yields_any|]. intros _ _.
      apply run_in_executor_wait_for_yields, play_sync_yields.
    + intros e. destruct (is_TimeoutError e).
      * apply yields_ret, backend_result_result. tauto.
      * eapply yields_bind; [apply yields_any|]. intros _ _.
        apply yields_ret, backend_result_result. tauto.
  - intros r Hr. apply yields_ret. exact Hr.
Qed.

Lemma builtin_play_yields b file_path volume timeout :
  builtin b ->
  yields (AudioBackend.play b file_path volume timeout)
    (backend_result (AudioBackend.name b)).
Proof.
  intros [->|[m ->]]; cbn.
  - apply AFPlayBackend_play_yields.
  - eapply yields_bind; [apply SimpleAudioBackend_play_yields|].
    intros r Hr. apply yields_ret. exact Hr.
Qed.

End Yields.

Section Results.
Context {P : Platform}.
Variable self : AudioPlayer.t.

Lemma try_backends_result file_path rest : forall last w r w' tr,
  Forall builtin rest ->
  AudioPlayer.try_backends self file_path last rest w = (Ret r, w', tr) ->
  (rest = []
   /\ r = match last with
          | Some r0 => r0
          | None => result FAILED "All audio backends failed" None
          end)
  \/ (exists b, In b rest /\ backend_result (AudioBackend.name b) r).
Proof.
  induction rest as [|b rest IH]; intros last w r w' tr Hall.
  - cbn. intros H. injection H as <- _ _. left. split; reflexivity.
  - rewrite try_backends_cons. cbv zeta.
    inversion Hall as [|? ? Hb Hrest]; subst.
    destruct (AudioBackend.play b file_path _ _ w) as [[[r0|e] w1] inner]
      eqn:Eplay; [|discriminate].
    pose proof (builtin_play_yields _ _ _ Hb _ Eplay) as Hr0.
    destruct (PlaybackStatus_eqb (status r0) SUCCESS).
    + intros H. injection H as <- _ _. right. exists b.
      split; [left; reflexivity|exact Hr0].
    + destruct (AudioPlayer.try_backends self file_path (Some r0) rest w1)
        as [[o w2] t2] eqn:Erest.
      intros H. injection H as -> _ _. right.
      destruct (IH _ _ _ _ _ Hrest Erest) as [[_ ->]|(b' & Hin & Hb')].
      * exists b. split; [left; reflexivity|exact Hr0].
      * exists b'. split; [right; exact Hin|exact Hb'].
Qed.

Lemma play_with_backends_result file_path w r w' tr :
  Forall builtin (AudioPlayer.backends self) ->
  AudioPlayer._play_with_backends self file_path w = (Ret r, w', tr) ->
  (AudioPlayer.backends self = []
   /\ r = result FAILED "No audio backends available" None)
  \/ (exists b, In b (AudioPlayer.backends self)
                /\ backend_result (AudioBackend.name b) r).
Proof.
  intros Hall. unfold AudioPlayer._play_with_backends.
  destruct (AudioPlayer.backends self) as [|b bs] eqn:Hb.
  - intros H. injection H as <- _ _. left. split; reflexivity.
  - intros H. right.
    destruct (try_backends_result _ _ _ Hall H) as [[Hnil _]|Hex];
      [discriminate|exact Hex].
Qed.

(** What [play_notification] returns with built-in backends: the result of
    the primary attempt as the backends built it, or the relabelled result
    of the fallback. *)
Lemma play_notification_result custom_path w r w' tr :
  Forall builtin (AudioPlayer.backends self) ->
  AudioPlayer.play_notification self custom_path w = (Ret r, w', tr) ->
  (AudioPlayer.backends self = []
   /\ r = result FAILED "No audio backends available" None)
  \/ (exists b, In b (AudioPlayer.backends self)
                /\ backend_result (AudioBackend.name b) r)
  \/ (exists b, In b (AudioPlayer.backends self)
                /\ backend_used r = Some (AudioBackend.name b)
                /\ status r = FALLBACK_USED /\ fallback_used r = true
                /\ duration_ms r = None /\ truthy custom_path = true).
Proof.
  intros Hall. rewrite play_notification_run.
  destruct (AudioPlayer.choose_audio self custom_path)
    as [audio_path use_custom] eqn:Hc.
  assert (Hcustom : use_custom = truthy custom_path).
  { revert Hc. unfold AudioPlayer.choose_audio.
    destruct (truthy custom_path);
      [destruct (truthy (custom_sound_path (AudioPlayer.config self)))|];
      cbn; intro H; injection H as _ <-; reflexivity. }
  destruct (AudioPlayer._play_with_backends self audio_path w)
    as [[[r1|e1] w1] t1] eqn:H1; [|discriminate].
  pose proof (play_with_backends_result _ _ Hall H1) as Hr1.
  destruct (negb _ && use_custom && _ && _) eqn:Hcond.
  - destruct (AudioPlayer._play_with_backends self _ w1)
      as [[[r2|e2] w2] t2] eqn:H2; [|discriminate].
    destruct (PlaybackStatus_eqb (status r2) SUCCESS) eqn:Hs2.
    + intros H. injection H as <- _ _. right. right.
      apply PlaybackStatus_eqb_eq in Hs2.
      destruct (play_with_backends_result _ _ Hall H2)
        as [[_ ->]|(b & Hin & Hbu & _ & Hd & _)]; [discriminate|].
      exists b. cbn. rewrite Hbu, Hd.
      apply andb_true_iff in Hcond. destruct Hcond as [Hcond _].
      apply andb_true_iff in Hcond. destruct Hcond as [Hcond _].
      apply andb_true_iff in Hcond. destruct Hcond as [_ Hu].
      rewrite <- Hcustom, Hu. repeat split. exact Hin.
    + intros H. injection H as <- _ _.
      destruct Hr1 as [Hr1|Hr1]; [left|right; left]; exact Hr1.
  - intros H. injection H as <- _ _.
    destruct Hr1 as [Hr1|Hr1]; [left|right; left]; exact Hr1.
Qed.

End Results.

Section Extras.
Context {P : Platform}.

Lemma play_with_backends_calls_bounded (self : AudioPlayer.t) file_path w :
  (length (invocations
             (snd (AudioPlayer._play_with_backends self file_path w)))
   <= length (AudioPlayer.backends self))%nat.
Proof.
  pose proof (play_with_backends_shape self file_path w) as H.
  destruct (AudioPlayer._play_with_backends self file_path w)
    as [[o w1] tr].
  destruct H as [([n Hn] & _) _]. cbn [snd].
  apply (f_equal (@length string)) in Hn. rewrite !length_map in Hn.
  rewrite Hn, length_firstn. lia.
Qed.

(** X1.  When [_play_with_backends] on a registry that is not empty returns
    a result that is not a success, every backend was called, once and in
    registry order, every call was unsuccessful, and the result returned is
    the one of the last backend: the result "All audio backends failed" that
    the source builds after the loop is never the one returned. *)
Theorem exhausted_loop_returns_last_result
    (self : AudioPlayer.t) (file_path : Path) (w w' : World)
    (r : PlaybackResult) (tr : list Event) :
  AudioPlayer.backends self <> [] ->
  AudioPlayer._play_with_backends self file_path w = (Ret r, w', tr) ->
  status r <> SUCCESS ->
  map inv_backend (invocations tr)
  = map AudioBackend.name (AudioPlayer.backends self)
  /\ Forall unsuccessful (invocations tr)
  /\ exists pre i, invocations tr = pre ++ [i] /\ inv_outcome i = Ret r.
Proof.
  intros Hne Hrun Hs.
  pose proof (play_with_backends_shape self file_path w) as H.
  rewrite Hrun in H.
  destruct H as [(_ & _ & Hbut & _ & Hlast & Hall) _].
  pose proof (Hall r eq_refl Hs) as Hnames.
  assert (Hinv : invocations tr <> []).
  { intros Hnil. rewrite Hnil in Hnames. cbn in Hnames.
    destruct (AudioPlayer.backends self); [contradiction|discriminate]. }
  destruct (Hlast r eq_refl Hinv) as (pre & i & Hi & Ho).
  split; [exact Hnames|]. split; [|exists pre, i; split; assumption].
  rewrite Hi. apply Forall_app. split.
  - apply Forall_forall. intros j Hj.
    destruct (in_split _ _ Hj) as (p1 & p2 & ->).
    apply (Hbut p1 j (p2 ++ [i])).
    + rewrite Hi, <- app_assoc. reflexivity.
    + destruct p2; discriminate.
  - constructor; [|constructor]. exists r. split; assumption.
Qed.

(** X2.  One call of [play_notification] calls [backend.play] at most twice
    the size of the registry, and at most the size of the registry when it
    does not log the fallback line. *)
Theorem play_notification_calls_bounded
    (self : AudioPlayer.t) (custom_path : option string) (w : World) :
  let tr := snd (AudioPlayer.play_notification self custom_path w) in
  (length (invocations tr) <= 2 * length (AudioPlayer.backends self))%nat
  /\ (~ In fallback_line tr ->
      (length (invocations tr) <= length (AudioPlayer.backends self))%nat).
Proof.
  cbv zeta. rewrite play_notification_run.
  destruct (AudioPlayer.choose_audio self custom_path)
    as [audio_path use_custom].
  pose proof (play_with_backends_calls_bounded self audio_path w) as H1.
  destruct (AudioPlayer._play_with_backends self audio_path w)
    as [[[r|e1] w1] t1]; cbn [snd] in H1.
  - destruct (negb _ && use_custom && _ && _).
    + pose proof (play_with_backends_calls_bounded self
                    (AudioPlayer._default_sound_path self) w1) as H2.
      assert (Hlen : (length (invocations
                        (playing_line audio_path use_custom
                           :: t1 ++ fallback_line
                           :: snd (AudioPlayer._play_with_backends self
                                     (AudioPlayer._default_sound_path self)
                                     w1)))
                      <= 2 * length (AudioPlayer.backends self))%nat).
      { cbn [invocations playing_line]. rewrite invocations_app.
        cbn [invocations fallback_line]. rewrite length_app. lia. }
      destruct (AudioPlayer._play_with_backends self _ w1)
        as [[[r2|e2] w2] t2]; cbn [snd] in *.
      * split; [exact Hlen|]. intros Hno. exfalso. apply Hno.
        right. apply in_or_app. right. left. reflexivity.
      * split; [exact Hlen|]. intros Hno. exfalso. apply Hno.
        right. apply in_or_app. right. left. reflexivity.
    + cbn [snd invocations playing_line]. split; [lia|]. intros _. exact H1.
  - cbn [snd invocations playing_line]. split; [lia|]. intros _. exact H1.
Qed.

(** X3.  A result of status [SUCCESS] returned by [play_notification] comes
    from the primary asset: no fallback was attempted, every backend call
    was made on the asset chosen at the head of the function, and the
    result is the one of the last call. *)
Theorem success_is_from_primary_asset
    (self : AudioPlayer.t) (custom_path : option string) (w w' : World)
    (audio_path : Path) (use_custom : bool)
    (r : PlaybackResult) (tr : list Event) :
  AudioPlayer.choose_audio self custom_path = (audio_path, use_custom) ->
  AudioPlayer.play_notification self custom_path w = (Ret r, w', tr) ->
  status r = SUCCESS ->
  ~ In fallback_line tr
  /\ Forall (fun i => inv_path i = audio_path) (invocations tr)
  /\ exists pre i, invocations tr = pre ++ [i] /\ inv_outcome i = Ret r.
Proof.
  intros Hc. rewrite play_notification_run, Hc.
  pose proof (play_with_backends_shape self audio_path w) as Hshape.
  pose proof (play_with_backends_events self audio_path w) as Hev.
  destruct (AudioPlayer._play_with_backends self audio_path w)
    as [[[r1|e1] w1] t1]; [|discriminate].
  destruct Hshape as [(_ & Hargs & _ & _ & Hlast & _) Hne].
  cbn [snd] in Hev.
  destruct (negb (PlaybackStatus_eqb (status r1) SUCCESS) && use_custom
            && _ && _) eqn:Hcond.
  - destruct (AudioPlayer._play_with_backends self _ w1)
      as [[[r2|e2] w2] t2]; [|discriminate].
    intros H Hs. injection H as <- _ _. exfalso.
    destruct (PlaybackStatus_eqb (status r2) SUCCESS); [discriminate|].
    apply andb_true_iff in Hcond. destruct Hcond as [Hcond _].
    apply andb_true_iff in Hcond. destruct Hcond as [Hcond _].
    apply andb_true_iff in Hcond. destruct Hcond as [Hcond _].
    apply negb_true_iff, PlaybackStatus_eqb_neq in Hcond. contradiction.
  - intros H Hs. injection H as <- _ <-. split; [|split].
    + intros [Heq|Hin]; [discriminate|].
      exact (loop_event_not_info _ Hev Hin).
    + cbn [invocations playing_line].
      eapply Forall_impl; [|exact Hargs]. intros i Hi. apply Hi.
    + cbn [invocations playing_line].
      apply (Hlast r1 eq_refl). exact (Hne r1 eq_refl Hs).
Qed.

(** X4.  With built-in backends, the fallback flag of the result of
    [play_notification] is set exactly when its status is [FALLBACK_USED],
    which happens only when the caller passed a path; the status is never
    [UNSUPPORTED_FORMAT] and the duration is never filled in. *)
Theorem fallback_flag_matches_status
    (self : AudioPlayer.t) (custom_path : option string) (w w' : World)
    (r : PlaybackResult) (tr : list Event) :
  Forall builtin (AudioPlayer.backends self) ->
  AudioPlayer.play_notification self custom_path w = (Ret r, w', tr) ->
  (fallback_used r = true <-> status r = FALLBACK_USED)
  /\ (status r = FALLBACK_USED -> truthy custom_path = true)
  /\ status r <> UNSUPPORTED_FORMAT
  /\ duration_ms r = None.
Proof.
  intros Hall Hrun.
  destruct (play_notification_result _ _ _ Hall Hrun)
    as [[_ ->]|[(b & _ & _ & Hf & Hd & Hs)|(b & _ & _ & Hs & Hf & Hd & Ht)]].
  - cbn. repeat split; discriminate.
  - rewrite Hf, Hd.
    repeat split; try discriminate;
      destruct Hs as [Hs|[Hs|[Hs|Hs]]]; rewrite Hs; discriminate.
  - rewrite Hf, Hs, Hd. repeat split; try discriminate; auto.
Qed.

(** X5.  With built-in backends, the result of [play_notification] names no
    backend when the registry is empty, and otherwise names a backend of
    the registry. *)
Theorem result_names_a_registered_backend
    (self : AudioPlayer.t) (custom_path : option string) (w w' : World)
    (r : PlaybackResult) (tr : list Event) :
  Forall builtin (AudioPlayer.backends self) ->
  AudioPlayer.play_notification self custom_path w = (Ret r, w', tr) ->
  match AudioPlayer.backends self with
  | [] => backend_used r = None
  | _ :: _ =>
      exists b, In b (AudioPlayer.backends self)
                /\ backend_used r = Some (AudioBackend.name b)
  end.
Proof.
  intros Hall Hrun.
  destruct (play_notification_result _ _ _ Hall Hrun)
    as [[Hnil ->]|[(b & Hin & Hu & _)|(b & Hin & Hu & _)]].
  - rewrite Hnil. reflexivity.
  - destruct (AudioPlayer.backends self); [contradiction|].
    exists b. split; assumption.
  - destruct (AudioPlayer.backends self); [contradiction|].
    exists b. split; assumption.
Qed.

(** X6.  When [play_notification] raises, the call of [backend.play] that
    raised is the last call made: no later backend is tried and no fallback
    follows. *)
Theorem raise_is_the_last_call
    (self : AudioPlayer.t) (custom_path : option string) (w w' : World)
    (e : Exn) (tr : list Event) :
  AudioPlayer.play_notification self custom_path w = (Raise e, w', tr) ->
  exists pre i, invocations tr = pre ++ [i] /\ inv_outcome i = Raise e.
Proof.
  rewrite play_notification_run.
  destruct (AudioPlayer.choose_audio self custom_path)
    as [audio_path use_custom].
  destruct (AudioPlayer._play_with_backends self audio_path w)
    as [[[r|e1] w1] t1] eqn:H1.
  - destruct (negb _ && use_custom && _ && _); [|discriminate].
    destruct (AudioPlayer._play_with_backends self _ w1)
      as [[[r2|e2] w2] t2] eqn:H2; [discriminate|].
    intros H. injection H as -> _ <-.
    destruct (play_with_backends_raise_last _ _ _ H2) as (pre & i & Hi & Ho).
    cbn [invocations playing_line]. rewrite invocations_app.
    cbn [invocations fallback_line]. rewrite Hi, app_assoc.
    eexists _, i. split; [reflexivity|exact Ho].
  - intros H. injection H as -> _ <-.
    destruct (play_with_backends_raise_last _ _ _ H1) as (pre & i & Hi & Ho).
    cbn [invocations playing_line]. exists pre, i. split; assumption.
Qed.

End Extras.

Section BackendExtras.
Context {P : Platform}.

(** One step of a run of [AFPlayBackend.play]: a case analysis on the next
    answer of the host. *)
Ltac afplay_step :=
  match goal with
  | |- context [path_exists ?p ?w] =>
      destruct (path_exists p w) as [?|[|]] eqn:?
  | |- context [create_subprocess_exec ?c ?w] =>
      destruct (create_subprocess_exec c w) as [[?|?] ?] eqn:?
  | |- context [communicate ?p ?t ?w] =>
      destruct (communicate p t w) as [[?|[? ?]] ?] eqn:?
  | |- context [is_TimeoutError ?e] =>
      destruct (is_TimeoutError e) eqn:?
  | |- context [process_kill ?p ?w] =>
      destruct (process_kill p w) as [[?|[]] ?] eqn:?
  | |- context [process_wait ?p ?w] =>
      destruct (process_wait p w) as [[?|[]] ?] eqn:?
  | |- context [returncode ?p ?w] =>
      destruct (returncode p w) as [[| |]|] eqn:?
  | |- context [decode ?b] =>
      destruct (decode b) as [?|?] eqn:?
  | |- context [match ?l with [] => _ | _ :: _ => _ end] =>
      is_var l; destruct l
  end.

Ltac afplay_run :=
  unfold AFPlayBackend.play, bind, try_except, call, query, ask, emit, ret,
    pure_or_raise, raise;
  cbv zeta;
  repeat (afplay_step; cbn [negb fst snd]).

(** X7.  [AFPlayBackend.play] returns the status [TIMEOUT] only after it
    has killed the process and waited for it: the calls made end with the
    timed-out [communicate], [kill] and [wait]. *)
Theorem AFPlayBackend_timeout_only_after_kill
    (file_path : Path) (volume : Q) (timeout : Z) (w w' : World)
    (r : PlaybackResult) (tr : list MechEvent) :
  AFPlayBackend.play file_path volume timeout w = (Ret r, w', tr) ->
  status r = TIMEOUT ->
  exists pre, tr = pre ++ [EvCommunicate timeout; EvKill; EvWait].
Proof.
  afplay_run; intros H Hs; try discriminate H; injection H as <- _ <-;
    try discriminate Hs.
  eexists [_; _]. reflexivity.
Qed.

(** X8.  [AFPlayBackend.play] returns the status [SUCCESS] exactly when the
    file exists, [afplay] was started on it, [communicate] came back before
    the timeout and the return code of the process is 0. *)
Theorem AFPlayBackend_success_iff_exit_zero
    (file_path : Path) (volume : Q) (timeout : Z) (w w' : World)
    (r : PlaybackResult) (tr : list MechEvent) :
  AFPlayBackend.play file_path volume timeout w = (Ret r, w', tr) ->
  (status r = SUCCESS
   <-> exists process w1 out,
         path_exists file_path w = inr true
         /\ create_subprocess_exec (afplay_command file_path volume) w
            = (inr process, w1)
         /\ communicate process timeout w1 = (inr out, w')
         /\ returncode process w' = Some 0%Z).
Proof.
  unfold afplay_command.
  afplay_run; intros H; try discriminate H; injection H as <- <- <-;
    (split;
     [ intros Hs; try discriminate Hs; eauto 10
     | intros (proc' & wa & out' & Hp & Hspawn & Hcomm & Hrc);
       try reflexivity; congruence ]).
Qed.

(** X9.  The only process that [AFPlayBackend.play] starts is [afplay] on
    the file given, with the option [-v] and the volume unless the volume
    is 1.0; it starts none when the file does not exist. *)
Theorem AFPlayBackend_spawns_only_afplay
    (file_path : Path) (volume : Q) (timeout : Z) (w w' : World)
    (o : Outcome PlaybackResult) (tr : list MechEvent) (cmd : list string) :
  AFPlayBackend.play file_path volume timeout w = (o, w', tr) ->
  In (EvSpawn cmd) tr ->
  path_exists file_path w = inr true
  /\ cmd = if Qeq_bool volume 1
           then ["afplay"; str_path file_path]
           else ["afplay"; "-v"; str_float volume; str_path file_path].
Proof.
  afplay_run; intros H; injection H as <- <- <-; cbn [app In];
    intros Hin;
    repeat (destruct Hin as [Hin|Hin]; try discriminate Hin);
    try contradiction;
    injection Hin as <-; (split; [reflexivity|]);
    destruct (Qeq_bool volume 1); reflexivity.
Qed.


(** One step of a run of [SimpleAudioBackend.play]. *)
Ltac simpleaudio_step :=
  match goal with
  | |- context [import_simpleaudio ?w] =>
      destruct (import_simpleaudio w) as [[?|?] ?] eqn:?
  | |- context [is_ImportError ?e] =>
      destruct (is_ImportError e) eqn:?
  | |- context [path_exists ?p ?w] =>
      destruct (path_exists p w) as [?|[|]] eqn:?
  | |- context [get_event_loop ?w] =>
      destruct (get_event_loop w) as [[?|[]] ?] eqn:?
  | |- context [ThreadPoolExecutor ?w] =>
      destruct (ThreadPoolExecutor w) as [[?|[]] ?] eqn:?
  | |- context [from_wave_file ?m ?s ?w] =>
      destruct (from_wave_file m s w) as [[?|?] ?] eqn:?
  | |- context [wave_play ?o ?w] =>
      destruct (wave_play o w) as [[?|?] ?] eqn:?
  | |- context [wait_done ?o ?w] =>
      destruct (wait_done o w) as [[?|[]] ?] eqn:?
  | |- context [wait_for_expired ?t ?w0 ?w1] =>
      destruct (wait_for_expired t w0 w1) eqn:?
  | |- context [wait_for_error ?t ?w] =>
      destruct (wait_for_error t w) eqn:?
  | |- context [is_TimeoutError ?e] =>
      destruct (is_TimeoutError e) eqn:?
  end.

Ltac simpleaudio_run :=
  unfold SimpleAudioBackend.play, SimpleAudioBackend.is_available,
    SimpleAudioBackend.run_in_executor_wait_for,
    SimpleAudioBackend._play_sync, bind, try_except, call, query, ask,
    emit, ret, raise;
  cbn [SimpleAudioBackend._simpleaudio negb fst snd];
  repeat (simpleaudio_step;
          cbn [SimpleAudioBackend._simpleaudio negb fst snd]).

(** [_play_sync] does not read the volume. *)
Lemma SimpleAudioBackend_play_volume
    (self : SimpleAudioBackend.t) (file_path : Path) (volume1 volume2 : Q)
    (timeout : Z) (w : World) :
  SimpleAudioBackend.play self file_path volume1 timeout w
  = SimpleAudioBackend.play self file_path volume2 timeout w.
Proof. reflexivity. Qed.

Lemma try_backends_volume self volume file_path rest : forall last w,
  Forall is_simpleaudio rest ->
  fst (AudioPlayer.try_backends (with_volume self volume) file_path last
         rest w)
  = fst (AudioPlayer.try_backends self file_path last rest w).
Proof.
  induction rest as [|b rest IH]; intros last w Hall; [reflexivity|].
  inversion Hall as [|? ? [backend ->] Hrest]; subst.
  rewrite !try_backends_cons. cbv zeta.
  cbn [AudioPlayer.config with_volume playback_timeout_seconds volume_level].
  change (AudioBackend.play (SimpleAudioBackend.as_backend backend)
            file_path volume)
    with (AudioBackend.play (SimpleAudioBackend.as_backend backend)
            file_path (volume_level (AudioPlayer.config self))).
  destruct (AudioBackend.play (SimpleAudioBackend.as_backend backend)
              file_path _ _ w)
    as [[[r|e] w1] inner]; [|reflexivity].
  destruct (PlaybackStatus_eqb (status r) SUCCESS); [reflexivity|].
  specialize (IH (Some r) w1 Hrest).
  destruct (AudioPlayer.try_backends (with_volume self volume) file_path
              (Some r) rest w1) as [[o2 w2] t2].
  destruct (AudioPlayer.try_backends self file_path (Some r) rest w1)
    as [[o3 w3] t3].
  cbn [fst] in *. exact IH.
Qed.

Lemma play_with_backends_volume self volume file_path w :
  Forall is_simpleaudio (AudioPlayer.backends self) ->
  fst (AudioPlayer._play_with_backends (with_volume self volume) file_path w)
  = fst (AudioPlayer._play_with_backends self file_path w).
Proof.
  intros Hall. unfold AudioPlayer._play_with_backends.
  cbn [AudioPlayer.backends with_volume].
  destruct (AudioPlayer.backends self) as [|b bs] eqn:Hb; [reflexivity|].
  apply try_backends_volume. exact Hall.
Qed.

(** X11.  With a registry that holds [simpleaudio] backends only, the
    configured volume has no effect: whatever the volume,
    [play_notification] returns the same result and leaves the host in the
    same state. *)
Theorem simpleaudio_player_ignores_volume
    (self : AudioPlayer.t) (volume : Q) (custom_path : option string)
    (w : World) :
  Forall is_simpleaudio (AudioPlayer.backends self) ->
  fst (AudioPlayer.play_notification (with_volume self volume) custom_path w)
  = fst (AudioPlayer.play_notification self custom_path w).
Proof.
  intros Hall. rewrite !play_notification_run.
  change (AudioPlayer.choose_audio (with_volume self volume) custom_path)
    with (AudioPlayer.choose_audio self custom_path).
  destruct (AudioPlayer.choose_audio self custom_path)
    as [audio_path use_custom].
  pose proof (play_with_backends_volume self volume audio_path w Hall) as H1.
  destruct (AudioPlayer._play_with_backends (with_volume self volume)
              audio_path w) as [[o1 w1] t1].
  destruct (AudioPlayer._play_with_backends self audio_path w)
    as [[o1' w1'] t1'].
  cbn [fst] in H1. injection H1 as -> ->.
  destruct o1' as [r|e]; [|reflexivity].
  cbn [AudioPlayer.config with_volume enable_fallback
       AudioPlayer._default_sound_path].
  destruct (negb _ && use_custom && _ && _); [|reflexivity].
  pose proof (play_with_backends_volume self volume
                (AudioPlayer._default_sound_path self) w1' Hall) as H2.
  destruct (AudioPlayer._play_with_backends (with_volume self volume)
              (AudioPlayer._default_sound_path self) w1')
    as [[o2 w2] t2].
  destruct (AudioPlayer._play_with_backends self
              (AudioPlayer._default_sound_path self) w1')
    as [[o2' w2'] t2'].
  cbn [fst] in H2. injection H2 as -> ->.
  destruct o2' as [r2|e2]; reflexivity.
Qed.

(** X12.  [_play_sync] never raises.  It returns the status [SUCCESS]
    after [wait_done] came back; otherwise it returns the status [FAILED],
    and its message is "simpleaudio playback error: " followed by the text
    of the exception that [from_wave_file], [play] or [wait_done] raised,
    or of the [AttributeError] when the module was never loaded. *)
Theorem play_sync_reports_errors
    (self : SimpleAudioBackend.t) (file_path : Path) (volume : Q)
    (w w' : World) (o : Outcome PlaybackResult) (tr : list MechEvent) :
  SimpleAudioBackend._play_sync self file_path volume w = (o, w', tr) ->
  exists r,
    o = Ret r
    /\ ((status r = SUCCESS /\ exists pre, tr = pre ++ [EvWaitDone])
        \/ (status r = FAILED
            /\ exists e,
                 play_sync_exception self file_path w e
                 /\ message r
                    = ("simpleaudio playback error: " ++ exn_str e)%string)).
Proof.
  destruct self as [[m|]]; simpleaudio_run;
    intros H; injection H as <- _ <-;
    eexists; (split; [reflexivity|]);
    unfold play_sync_exception; cbn [SimpleAudioBackend._simpleaudio];
    first
      [ left; split; [reflexivity|]; eexists [_; _]; reflexivity
      | right; split; [reflexivity|]; eexists; split;
        [ first
            [ reflexivity
            | left; eexists; eassumption
            | right; eexists _, _; split; [eassumption|];
              first [ left; eexists; eassumption
                    | right; eexists _, _, _; split; eassumption ] ]
        | reflexivity ] ].
Qed.

(** X13.  [SimpleAudioBackend.play] returns the status [SUCCESS] only when
    the sound was waited for to its end and the executor was shut down: the
    calls made end with [wait_done] and the shutdown. *)
Theorem SimpleAudioBackend_success_only_after_wait_done
    (self self' : SimpleAudioBackend.t) (file_path : Path) (volume : Q)
    (timeout : Z) (w w' : World) (r : PlaybackResult)
    (tr : list MechEvent) :
  SimpleAudioBackend.play self file_path volume timeout w
  = (Ret (r, self'), w', tr) ->
  status r = SUCCESS ->
  exists pre, tr = pre ++ [EvWaitDone; EvExecutorShutdown].
Proof.
  destruct self as [[m|]]; simpleaudio_run;
    intros H Hs; try discriminate H; injection H as <- _ _ <-;
    try discriminate Hs;
    cbn [app];
    first [ eexists [_; _; _; _]; reflexivity
          | eexists [_; _; _; _; _]; reflexivity ].
Qed.


(** X15.  [AFPlayBackend.is_available] answers [True] exactly on macOS when
    [which afplay] returned the code 0; on another platform it answers
    [False] without running anything. *)
Theorem AFPlayBackend_is_available_iff
    (ok : bool) (w w' : World) (tr : list MechEvent) :
  AFPlayBackend.is_available w = (Ret ok, w', tr) ->
  (ok = true
   <-> sys_platform = "darwin"
       /\ subprocess_run ["which"; "afplay"] 5 w = (inr 0%Z, w'))
  /\ (sys_platform <> "darwin" -> ok = false /\ w' = w /\ tr = []).
Proof.
  unfold AFPlayBackend.is_available, bind, try_except, call, ret.
  destruct (String.eqb_spec sys_platform "darwin") as [Hd|Hd]; cbn [negb].
  - destruct (subprocess_run ["which"; "afplay"] 5 w) as [[e|rc] w1];
      cbn.
    + destruct (is_TimeoutExpired_or_FileNotFoundError e); [|discriminate].
      cbn. intros H. injection H as <- <- _.
      split; [|contradiction].
      split; [discriminate|]. intros [_ H]. discriminate.
    + intros H. injection H as <- <- _.
      split; [|contradiction].
      destruct (Z.eqb_spec rc 0) as [->|Hrc].
      * split; [auto|reflexivity].
      * split; [discriminate|]. intros [_ H]. injection H as ->.
        contradiction.
  - intros H. injection H as <- <- <-.
    split; [|auto].
    split; [discriminate|]. intros [H _]. contradiction.
Qed.

End BackendExtras.

Section PlayerExtras.
Context {P : Platform}.

Lemma AFPlayBackend_is_available_elsewhere (w : World) :
  sys_platform <> "darwin" ->
  AFPlayBackend.is_available w = (Ret false, w, []).
Proof.
  intros Hd. unfold AFPlayBackend.is_available.
  destruct (String.eqb_spec sys_platform "darwin"); [contradiction|].
  reflexivity.
Qed.

(** X16.  The registry that [_setup_backends] builds is made of built-in
    backends, [afplay] before [simpleaudio], each at most once; [afplay] is
    never in it outside macOS; the warning "No audio backends available!"
    is logged exactly when the registry is empty. *)
Theorem setup_backends_registry
    (w w' : World) (backends : list AudioBackend.t) (tr : list Event) :
  AudioPlayer._setup_backends w = (Ret backends, w', tr) ->
  (exists afplay_ok simpleaudio_ok : bool,
     map AudioBackend.name backends
     = (if afplay_ok then ["afplay"] else [])
         ++ (if simpleaudio_ok then ["simpleaudio"] else []))
  /\ Forall builtin backends
  /\ (sys_platform <> "darwin" ->
      ~ In "afplay" (map AudioBackend.name backends))
  /\ (In (Log WARNING "No audio backends available!") tr
      <-> backends = []).
Proof.
  intros Hrun.
  pose proof (setup_backends_builtin _ Hrun) as Hbuiltin.
  revert Hrun. unfold AudioPlayer._setup_backends, bind, within.
  destruct (AFPlayBackend.is_available w) as [[[afplay_ok|e] w1] t1]
    eqn:Hav; [|discriminate].
  assert (Hoff : sys_platform <> "darwin" -> afplay_ok = false).
  { intros Hd. rewrite (AFPlayBackend_is_available_elsewhere w Hd) in Hav.
    injection Hav as <- _ _. reflexivity. }
  destruct afplay_ok;
    unfold SimpleAudioBackend.is_available, try_except, bind, call, emit,
      ret;
    cbn [SimpleAudioBackend._simpleaudio];
    (destruct (import_simpleaudio w1) as [[e|m] w2];
     [destruct (is_ImportError e)|]);
    cbn; intros H; try discriminate H; injection H as <- _ <-;
    (split;
     [ first [ exists true, true; reflexivity
             | exists true, false; reflexivity
             | exists false, true; reflexivity
             | exists false, false; reflexivity ] |]);
    (split; [exact Hbuiltin|]);
    (split;
     [ intros Hd;
       first [ discriminate (Hoff Hd)
             | cbn; intros Hin;
               repeat (destruct Hin as [Hin|Hin]; try discriminate Hin);
               contradiction ] |]);
    (split;
     [ intros Hin;
       first [ reflexivity
             | exfalso;
               repeat (destruct Hin as [Hin|Hin]; try discriminate Hin);
               contradiction ]
     | intros Hnil; first [ discriminate Hnil | cbn; auto 10 ] ]).
Qed.

(** X17.  Once the probes have returned, the constructor asks whether the
    bundled sound, [assets/notification.wav] in the package directory,
    exists.  When [exists()] answers, the constructor returns a player: it
    keeps the configuration and the registry as they are and takes the
    bundled sound as the default sound, whether the registry is empty or
    not and whether the file exists or not; a warning is logged exactly
    when the file is missing.  When [exists()] raises, the exception leaves
    the constructor and no player is built. *)
Theorem init_builds_the_player
    (config : ServerConfig) (w w1 : World) (backends : list AudioBackend.t)
    (t1 : list Event) :
  AudioPlayer._setup_backends w = (Ret backends, w1, t1) ->
  match path_exists bundled_sound w1 with
  | inr present =>
      exists t2,
        AudioPlayer.__init__ config w
        = (Ret {| AudioPlayer.config := config;
                  AudioPlayer.backends := backends;
                  AudioPlayer._default_sound_path := bundled_sound |},
           w1, t1 ++ t2)
        /\ (In (Log WARNING ("Default sound file not found: "
                               ++ str_path bundled_sound)) t2
            <-> present = false)
        /\ In (Log INFO ("AudioPlayer initialized with "
                           ++ str_int (Z.of_nat (length backends))
                           ++ " available backends")) t2
  | inl e => AudioPlayer.__init__ config w = (Raise e, w1, t1)
  end.
Proof.
  intros Hrun.
  unfold AudioPlayer.__init__, AudioPlayer._get_default_sound_path, bind,
    query, emit, ret.
  cbv zeta. fold bundled_sound. rewrite Hrun.
  destruct (path_exists bundled_sound w1) as [e|[|]]; cbn [negb].
  - rewrite app_nil_r. reflexivity.
  - eexists. split; [reflexivity|]. cbn [app]. split.
    + split; [|discriminate]. intros [Hin|[]]. discriminate Hin.
    + left. reflexivity.
  - eexists. split; [reflexivity|]. cbn [app]. split.
    + split; [reflexivity|]. intros _. left. reflexivity.
    + right. left. reflexivity.
Qed.


Lemma builtin_play_missing b file_path volume timeout w :
  builtin b ->
  path_exists file_path w = inr false ->
  AudioBackend.play b file_path volume timeout w
  = (Ret (result FILE_NOT_FOUND
            ("Audio file not found: " ++ str_path file_path)
            (Some (AudioBackend.name b))), w, []).
Proof.
  intros [->|[m ->]] Hmissing; cbn.
  - unfold AFPlayBackend.play, bind, query. rewrite Hmissing. reflexivity.
  - unfold SimpleAudioBackend.play, bind, query, ret. cbn.
    rewrite Hmissing. reflexivity.
Qed.

Lemma try_backends_missing self file_path w rest : forall last,
  Forall builtin rest ->
  path_exists file_path w = inr false ->
  (forall r0, last = Some r0 ->
     status r0 = FILE_NOT_FOUND
     /\ message r0 = ("Audio file not found: " ++ str_path file_path)%string)
  ->
  rest <> [] \/ last <> None ->
  exists r tr,
    AudioPlayer.try_backends self file_path last rest w = (Ret r, w, tr)
    /\ status r = FILE_NOT_FOUND
    /\ message r = ("Audio file not found: " ++ str_path file_path)%string
    /\ mechanism_events tr = []
    /\ map inv_backend (invocations tr) = map AudioBackend.name rest.
Proof.
  induction rest as [|b rest IH]; intros last Hall Hmissing Hlast Hne.
  - destruct last as [r0|]; [|destruct Hne; contradiction].
    destruct (Hlast r0 eq_refl) as [Hs Hm].
    exists r0, []. cbn. repeat split; assumption.
  - inversion Hall as [|? ? Hb Hrest]; subst.
    rewrite try_backends_cons. cbv zeta.
    erewrite builtin_play_missing; [|exact Hb|exact Hmissing].
    cbn [status result].
    cbn [PlaybackStatus_eqb].
    destruct (IH (Some (result FILE_NOT_FOUND
                          ("Audio file not found: " ++ str_path file_path)
                          (Some (AudioBackend.name b)))) Hrest Hmissing)
      as (r & tr & Hrun & Hs & Hm & Hmech & Hnames).
    + intros r0 H0. injection H0 as <-. split; reflexivity.
    + right. discriminate.
    + rewrite Hrun. eexists _, _. split; [reflexivity|].
      split; [exact Hs|]. split; [exact Hm|]. split.
      * cbn. exact Hmech.
      * cbn. rewrite Hnames. reflexivity.
Qed.

(** X19.  On a file that does not exist, [_play_with_backends] with a
    registry of built-in backends that is not empty asks every backend, in
    order, and returns the status [FILE_NOT_FOUND] with the path in the
    message; no backend calls its mechanism or logs anything, and the host
    is left as it was. *)
Theorem missing_file_launches_nothing
    (self : AudioPlayer.t) (file_path : Path) (w : World) :
  Forall builtin (AudioPlayer.backends self) ->
  AudioPlayer.backends self <> [] ->
  path_exists file_path w = inr false ->
  exists r tr,
    AudioPlayer._play_with_backends self file_path w = (Ret r, w, tr)
    /\ status r = FILE_NOT_FOUND
    /\ message r = ("Audio file not found: " ++ str_path file_path)%string
    /\ mechanism_events tr = []
    /\ map inv_backend (invocations tr)
       = map AudioBackend.name (AudioPlayer.backends self).
Proof.
  intros Hall Hne Hmissing. unfold AudioPlayer._play_with_backends.
  destruct (AudioPlayer.backends self) as [|b bs] eqn:Hb; [contradiction|].
  apply try_backends_missing; try assumption.
  - intros r0 H0. discriminate H0.
  - left. discriminate.
Qed.

End PlayerExtras.

(** * The further properties on the test host *)

Lemma registry0_builtin : Forall builtin registry0.
Proof.
  constructor; [left; reflexivity|].
  constructor; [right; exists tt; reflexivity|constructor].
Qed.

Lemma exhausted_loop_returns_last_result_witness :
  let self := player config0 [double "a" []; double "b" []] in
  let run := AudioPlayer._play_with_backends self "/tmp/mine.wav" host0 in
  fst (fst run)
  = Ret (result FAILED "b cannot play /tmp/mine.wav" (Some "b"))
  /\ map inv_backend (invocations (snd run)) = ["a"; "b"].
Proof.
  intros self run. split; [reflexivity|].
  refine (proj1 (@exhausted_loop_returns_last_result platform self
                   "/tmp/mine.wav" host0 (snd (fst run))
                   (result FAILED "b cannot play /tmp/mine.wav" (Some "b"))
                   (snd run) _ eq_refl _)); discriminate.
Defined.

Example play_notification_calls_bounded_on_host0 :
  length (invocations
            (snd (AudioPlayer.play_notification
                    (player config0 [double "a" []; double "b" []])
                    (Some "/tmp/mine.wav") host0)))
  = 4%nat.
Proof. reflexivity. Qed.

Lemma success_is_from_primary_asset_witness :
  let self := player config0 [double "a" []; double "b" [default_sound]] in
  let run := AudioPlayer.play_notification self None host0 in
  fst (fst run)
  = Ret (result SUCCESS "Audio played successfully" (Some "b"))
  /\ ~ In fallback_line (snd run)
  /\ Forall (fun i => inv_path i = default_sound) (invocations (snd run)).
Proof.
  intros self run. split; [reflexivity|].
  destruct (@success_is_from_primary_asset platform self None host0
              (snd (fst run)) default_sound false
              (result SUCCESS "Audio played successfully" (Some "b"))
              (snd run) eq_refl eq_refl eq_refl) as (Hno & Hon & _).
  split; assumption.
Defined.

Lemma fallback_flag_matches_status_witness :
  let r := {| status := FALLBACK_USED;
              message := "Custom audio failed, used fallback: Audio file not found: /tmp/mine.wav";
              duration_ms := None; backend_used := Some "afplay";
              fallback_used := true |} in
  fst (fst (AudioPlayer.play_notification (player config0 registry0)
              (Some "/tmp/mine.wav") host0)) = Ret r
  /\ (fallback_used r = true <-> status r = FALLBACK_USED)
  /\ status r <> UNSUPPORTED_FORMAT.
Proof.
  intros r. split; [reflexivity|].
  pose (run := AudioPlayer.play_notification (player config0 registry0)
                 (Some "/tmp/mine.wav") host0).
  destruct (@fallback_flag_matches_status platform
              (player config0 registry0) (Some "/tmp/mine.wav") host0
              (snd (fst run)) r (snd run) registry0_builtin eq_refl)
    as (Hflag & _ & Hnever & _).
  split; assumption.
Defined.

Lemma result_names_a_registered_backend_witness :
  exists b,
    In b registry0
    /\ Some "afplay" = Some (AudioBackend.name b).
Proof.
  pose (run := AudioPlayer.play_notification (player config0 registry0)
                 (Some "/tmp/mine.wav") host0).
  exact (@result_names_a_registered_backend platform
           (player config0 registry0) (Some "/tmp/mine.wav") host0
           (snd (fst run))
           {| status := FALLBACK_USED;
              message := "Custom audio failed, used fallback: Audio file not found: /tmp/mine.wav";
              duration_ms := None; backend_used := Some "afplay";
              fallback_used := true |}
           (snd run) registry0_builtin eq_refl).
Defined.

Lemma raise_is_the_last_call_witness :
  let self := player config0 [double "a" []; AudioBackend.base "x";
                              double "c" [default_sound]] in
  let run := AudioPlayer.play_notification self None host0 in
  map inv_backend (invocations (snd run)) = ["a"; "x"]
  /\ exists pre i,
       invocations (snd run) = pre ++ [i]
       /\ inv_outcome i = Raise (mkExn NotImplementedError "").
Proof.
  intros self run. split; [reflexivity|].
  exact (@raise_is_the_last_call platform self None host0 (snd (fst run))
           (mkExn NotImplementedError "") (snd run) eq_refl).
Defined.

Lemma AFPlayBackend_timeout_only_after_kill_witness :
  let run := AFPlayBackend.play default_sound 1 1 host0 in
  fst (fst run)
  = Ret (result TIMEOUT "Audio playback timed out after 1 seconds"
           (Some "afplay"))
  /\ exists pre, snd run = pre ++ [EvCommunicate 1; EvKill; EvWait].
Proof.
  intros run. split; [reflexivity|].
  exact (@AFPlayBackend_timeout_only_after_kill platform default_sound 1 1
           host0 (snd (fst run))
           (result TIMEOUT "Audio playback timed out after 1 seconds"
              (Some "afplay"))
           (snd run) eq_refl eq_refl).
Defined.

Lemma AFPlayBackend_success_iff_exit_zero_witness :
  let run := AFPlayBackend.play default_sound (4 # 5) 30 host0 in
  fst (fst run)
  = Ret (result SUCCESS "Audio played successfully" (Some "afplay"))
  /\ exists process w1 out,
       path_exists default_sound host0 = inr true
       /\ create_subprocess_exec (afplay_command default_sound (4 # 5)) host0
          = (inr process, w1)
       /\ communicate process 30 w1 = (inr out, snd (fst run))
       /\ returncode process (snd (fst run)) = Some 0%Z.
Proof.
  intros run. split; [reflexivity|].
  exact (proj1 (@AFPlayBackend_success_iff_exit_zero platform default_sound
                  (4 # 5) 30 host0 (snd (fst run))
                  (result SUCCESS "Audio played successfully"
                     (Some "afplay"))
                  (snd run) eq_refl) eq_refl).
Defined.

Lemma AFPlayBackend_spawns_only_afplay_witness :
  path_exists default_sound host0 = inr true
  /\ ["afplay"; "-v"; "4/5"; default_sound]
     = ["afplay"; "-v"; str_float (4 # 5); str_path default_sound].
Proof.
  pose (run := AFPlayBackend.play default_sound (4 # 5) 30 host0).
  refine (@AFPlayBackend_spawns_only_afplay platform default_sound (4 # 5)
            30 host0 (snd (fst run)) (fst (fst run)) (snd run)
            ["afplay"; "-v"; "4/5"; default_sound] eq_refl _).
  right. left. reflexivity.
Defined.


Lemma play_sync_reports_errors_witness :
  let run := SimpleAudioBackend._play_sync SimpleAudioBackend.__init__
               default_sound 1 host0 in
  exists r,
    fst (fst run) = Ret r
    /\ ((status r = SUCCESS /\ exists pre, snd run = pre ++ [EvWaitDone])
        \/ (status r = FAILED
            /\ exists e,
                 play_sync_exception SimpleAudioBackend.__init__
                   default_sound host0 e
                 /\ message r
                    = ("simpleaudio playback error: " ++ exn_str e)%string)).
Proof.
  intros run.
  exact (@play_sync_reports_errors platform SimpleAudioBackend.__init__
           default_sound 1 host0 (snd (fst run)) (fst (fst run)) (snd run)
           eq_refl).
Defined.

Lemma SimpleAudioBackend_success_only_after_wait_done_witness :
  let run := SimpleAudioBackend.play loaded default_sound 1 30 host0 in
  fst (fst run)
  = Ret (result SUCCESS "Audio played successfully" (Some "simpleaudio"),
         loaded)
  /\ exists pre, snd run = pre ++ [EvWaitDone; EvExecutorShutdown].
Proof.
  intros run. split; [reflexivity|].
  exact (@SimpleAudioBackend_success_only_after_wait_done platform loaded
           loaded default_sound 1 30 host0 (snd (fst run))
           (result SUCCESS "Audio played successfully" (Some "simpleaudio"))
           (snd run) eq_refl eq_refl).
Defined.


Lemma AFPlayBackend_is_available_iff_witness :
  AFPlayBackend.is_available host0
  = (Ret true, host0, [EvSubprocessRun ["which"; "afplay"]])
  /\ sys_platform = "darwin"
  /\ @AFPlayBackend.is_available platform_linux host0
     = (Ret false, host0, []).
Proof.
  split; [reflexivity|]. split.
  - exact (proj1 (proj1 (proj1 (@AFPlayBackend_is_available_iff platform
                                  true host0 host0
                                  [EvSubprocessRun ["which"; "afplay"]]
                                  eq_refl)) eq_refl)).
  - pose (run := @AFPlayBackend.is_available platform_linux host0).
    destruct (proj2 (@AFPlayBackend_is_available_iff platform_linux
                       false (snd (fst run)) host0 (snd run) eq_refl))
      as (_ & Hw & Htr); [discriminate|].
    reflexivity.
Defined.

Lemma setup_backends_registry_witness :
  let run := AudioPlayer._setup_backends host0 in
  let bare := @AudioPlayer._setup_backends platform_linux host_bare in
  (exists afplay_ok simpleaudio_ok : bool,
     ["afplay"; "simpleaudio"]
     = (if afplay_ok then ["afplay"] else [])
         ++ (if simpleaudio_ok then ["simpleaudio"] else []))
  /\ In (@Log platform_linux WARNING "No audio backends available!")
       (snd bare).
Proof.
  intros run bare. split.
  - exact (proj1 (@setup_backends_registry platform host0 (snd (fst run))
                    registry0 (snd run) eq_refl)).
  - exact (proj2 (proj2 (proj2 (proj2
             (@setup_backends_registry platform_linux host_bare
                (snd (fst bare)) [] (snd bare) eq_refl)))) eq_refl).
Defined.

Lemma init_builds_the_player_witness :
  (exists t2,
     AudioPlayer.__init__ config_bad host_bare
     = (Ret (player config_bad [AFPlayBackend.as_backend]), host_bare,
        snd (AudioPlayer._setup_backends host_bare) ++ t2)
     /\ In (Log INFO "AudioPlayer initialized with 1 available backends")
          t2)
  /\ @AudioPlayer.__init__ platform_deep config0 host0
     = (Raise (mkExn OtherException "[Errno 36] File name too long"),
        host0, snd (@AudioPlayer._setup_backends platform_deep host0)).
Proof.
  split.
  - pose (run := AudioPlayer._setup_backends host_bare).
    pose proof (@init_builds_the_player platform config_bad host_bare
                  (snd (fst run)) [AFPlayBackend.as_backend] (snd run)
                  eq_refl) as H.
    change (@path_exists platform bundled_sound (snd (fst run)))
      with (@inr Exn bool true) in H.
    destruct H as (t2 & Hinit & _ & Hlog).
    exists t2. split; [exact Hinit|exact Hlog].
  - pose (run := @AudioPlayer._setup_backends platform_deep host0).
    exact (@init_builds_the_player platform_deep config0 host0
             (snd (fst run))
             [@AFPlayBackend.as_backend platform_deep;
              @SimpleAudioBackend.as_backend platform_deep
                (@SimpleAudioBackend.mk platform_deep (Some tt))]
             (snd run) eq_refl).
Defined.


Lemma missing_file_launches_nothing_witness :
  exists r tr,
    AudioPlayer._play_with_backends (player config0 registry0) "/nope.wav"
      host0 = (Ret r, host0, tr)
    /\ status r = FILE_NOT_FOUND
    /\ message r = "Audio file not found: /nope.wav"
    /\ mechanism_events tr = []
    /\ map inv_backend (invocations tr) = ["afplay"; "simpleaudio"].
Proof.
  refine (@missing_file_launches_nothing platform (player config0 registry0)
            "/nope.wav" host0 registry0_builtin _ eq_refl).
  discriminate.
Defined.

Lemma simpleaudio_player_ignores_volume_witness :
  let self := player config0 [SimpleAudioBackend.as_backend loaded] in
  fst (AudioPlayer.play_notification (with_volume self (1 # 10)) None host0)
  = (Ret (result SUCCESS "Audio played successfully" (Some "simpleaudio")),
     hear default_sound host0).
Proof.
  intros self.
  rewrite (@simpleaudio_player_ignores_volume platform self (1 # 10) None
             host0).
  - reflexivity.
  - constructor; [exists loaded; reflexivity|constructor].
Defined.
